(** * Bundesliga market-value scraper: shallow embedding and properties

    The development follows [transfer-markt-scraping.py] function by
    function:

    - [Py]: the fragment of the Python runtime the script relies on
      (exceptions, [str] methods, the [re] patterns it uses, [float], [int]);
    - [Normalizer]: [convert_currency_to_number] and [parse_percentage];
    - [Dates]: [datetime], [strptime]/[strftime] for ["%Y-%m-%d"] and
      [generate_date_range];
    - [Extractor]: header canonicalisation, the dedup pass and the row
      mapping of [scrape_bundesliga_market_values];
    - [Sink]: [save_to_csv] over an explicit file store;
    - [Main]: the loop of [main] over the snapshot dates.

    Modelling conventions.  Python [str] values are Rocq strings holding the
    UTF-8 encoding of the text, so ['€'] is a three-byte substring.  The
    character classes of [re], [str.strip], [float] and [strptime] are
    Python's on the ASCII range; Python also reads the decimal digits and
    the spaces of the other scripts of Unicode, which the model does not:
    a property that depends on how a text is classified is stated for
    [plain] texts, made of ASCII characters and euro signs, where the two
    agree.  Python [float] is IEEE binary64, computed with [SpecFloat] at
    precision 53 and maximal exponent 1024.  [print] calls and the parsing
    of the command line are not part of the model. *)

From Stdlib Require Import ZArith String Ascii List Sorted Lia SpecFloat.
From stdpp Require Import base option list gmap strings pretty.

Local Open Scope Z_scope.

(** ** The Python runtime fragment *)

Module Py.

Inductive exn := ValueError | OverflowError | OSError.

Inductive result (A : Type) :=
| Ret (a : A)
| Raise (e : exn).
Arguments Ret {A} a.
Arguments Raise {A} e.

Global Instance result_ret : MRet result := @Ret.
Global Instance result_bind : MBind result := λ A B f c,
  match c with
  | Ret a => f a
  | Raise e => Raise e
  end.

Global Instance result_fmap : FMap result := λ A B f c,
  match c with
  | Ret a => Ret (f a)
  | Raise e => Raise e
  end.

Definition is_ValueError (e : exn) : bool :=
  match e with ValueError => true | _ => false end.

Definition is_Exception (e : exn) : bool := true.

(** [try: body  except <catches>: handler] *)
Definition try_except {A} (body : result A) (catches : exn → bool)
    (handler : result A) : result A :=
  match body with
  | Ret a => Ret a
  | Raise e => if catches e then handler else Raise e
  end.

(** *** Characters

    One byte is one character on the ASCII range, which is where these
    classes are Python's. *)

(** [\d] and the digits of [float] and [int], on the ASCII range. *)
Definition is_digit (c : ascii) : bool :=
  Ascii.leb "0" c && Ascii.leb c "9".

Definition is_upper (c : ascii) : bool :=
  Ascii.leb "A" c && Ascii.leb c "Z".

Definition is_lower (c : ascii) : bool :=
  Ascii.leb "a" c && Ascii.leb c "z".

(** [\w]: letters, digits and the underscore. *)
Definition is_word (c : ascii) : bool :=
  is_digit c || is_upper c || is_lower c || Ascii.eqb c "_".

(** [str.isspace] on the ASCII range: TAB..CR, FS..US and the space. *)
Definition is_space (c : ascii) : bool :=
  let n := N_of_ascii c in
  ((9 <=? n) && (n <=? 13) || (28 <=? n) && (n <=? 32))%N.

(** The blanks [float] skips around a number, those of C's [isspace]:
    TAB..CR and the space, but not FS..US. *)
Definition is_blank (c : ascii) : bool :=
  let n := N_of_ascii c in
  ((9 <=? n) && (n <=? 13) || (n =? 32))%N.

Definition lower_char (c : ascii) : ascii :=
  if is_upper c then ascii_of_N (N_of_ascii c + 32) else c.

Definition digit_val (c : ascii) : option Z :=
  if is_digit c then Some (Z.of_N (N_of_ascii c) - 48) else None.

(** *** [str] methods *)

(** [needle in hay] *)
Fixpoint contains (needle hay : string) : bool :=
  String.prefix needle hay ||
  match hay with
  | String _ hay' => contains needle hay'
  | EmptyString => false
  end.

(** [s.replace(old, new)] for a non-empty [old]: occurrences are replaced
    left to right without overlap; [skip] counts the characters of the
    occurrence just replaced that are still to be passed over. *)
Fixpoint replace_go (old new s : string) (skip : nat) : string :=
  match s with
  | EmptyString => EmptyString
  | String c s' =>
      match skip with
      | S k => replace_go old new s' k
      | O =>
          if String.prefix old s
          then new +:+ replace_go old new s' (Nat.pred (String.length old))
          else String c (replace_go old new s' O)
      end
  end.

Definition replace (old new s : string) : string := replace_go old new s O.

(** Dropping the leading, the trailing, and both runs of the characters
    that [blank] accepts. *)
Fixpoint lstrip_with (blank : ascii → bool) (s : string) : string :=
  match s with
  | String c s' => if blank c then lstrip_with blank s' else s
  | EmptyString => EmptyString
  end.

Definition rstrip_with (blank : ascii → bool) (s : string) : string :=
  String.rev (lstrip_with blank (String.rev s)).

Definition strip_with (blank : ascii → bool) (s : string) : string :=
  rstrip_with blank (lstrip_with blank s).

(** [s.lstrip()], [s.rstrip()] and [s.strip()] *)
Definition lstrip : string → string := lstrip_with is_space.
Definition rstrip : string → string := rstrip_with is_space.
Definition strip : string → string := strip_with is_space.

Fixpoint lower (s : string) : string :=
  match s with
  | String c s' => String (lower_char c) (lower s')
  | EmptyString => EmptyString
  end.

(** Truth value of a [str]: non-empty. *)
Definition truthy (s : string) : bool :=
  match s with EmptyString => false | _ => true end.

(** *** The [re] patterns of the script

    Every pattern in the source is a sequence of single-character matchers
    each carrying at most one of the quantifiers [?], [*], [+].  Matching
    is greedy with backtracking, as in [re]. *)

Inductive atom :=
| Lit (c : ascii)
| Cls (p : ascii → bool).

Definition test (a : atom) (c : ascii) : bool :=
  match a with
  | Lit c' => Ascii.eqb c' c
  | Cls p => p c
  end.

Inductive item :=
| One (a : atom)
| Opt (a : atom)
| Star (a : atom)
| Plus (a : atom).

Definition regex := list item.

(** Longest run of [a] first, then shorter ones, until [k] accepts. *)
Fixpoint greedy (a : atom) (k : string → option nat) (s : string)
    : option nat :=
  match s with
  | String c s' =>
      if test a c then
        match greedy a k s' with
        | Some n => Some (S n)
        | None => k s
        end
      else k s
  | EmptyString => k s
  end.

(** Length of the match of [r] anchored at the start of [s]. *)
Fixpoint match_here (r : regex) (s : string) : option nat :=
  match r with
  | [] => Some O
  | One a :: r' =>
      match s with
      | String c s' => if test a c then S <$> match_here r' s' else None
      | EmptyString => None
      end
  | Opt a :: r' =>
      match s with
      | String c s' =>
          if test a c then
            match match_here r' s' with
            | Some n => Some (S n)
            | None => match_here r' s
            end
          else match_here r' s
      | EmptyString => match_here r' s
      end
  | Star a :: r' => greedy a (match_here r') s
  | Plus a :: r' =>
      match s with
      | String c s' =>
          if test a c then S <$> greedy a (match_here r') s' else None
      | EmptyString => None
      end
  end.

Fixpoint search_from (r : regex) (s : string) (i : nat)
    : option (nat * nat) :=
  match match_here r s with
  | Some n => Some (i, n)
  | None =>
      match s with
      | String _ s' => search_from r s' (S i)
      | EmptyString => None
      end
  end.

(** [re.search(r, s)]: start and length of the leftmost match. *)
Definition re_search (r : regex) (s : string) : option (nat * nat) :=
  search_from r s O.

(** [match.group(1)] when the whole pattern is one group. *)
Definition group (s : string) (m : nat * nat) : string :=
  String.substring (fst m) (snd m) s.

Fixpoint lits (s : string) : regex :=
  match s with
  | String c s' => One (Lit c) :: lits s'
  | EmptyString => []
  end.

(** [\d], [\w] and [\s]. *)
Definition re_d : atom := Cls is_digit.
Definition re_w : atom := Cls is_word.
Definition re_s : atom := Cls is_space.

(** *** [float] *)

Definition prec : Z := 53.
Definition emax : Z := 1024.

Definition float_of_Z (n : Z) : spec_float :=
  binary_normalize prec emax n 0 false.

Definition fmul : spec_float → spec_float → spec_float := SFmul prec emax.

(** The binary64 nearest to [(-1)^s * m * 10^e] (ties to even). *)
Definition float_of_decimal (s : bool) (m e : Z) : spec_float :=
  match m with
  | Zpos p =>
      if 0 <=? e
      then binary_normalize prec emax (cond_Zopp s (m * 10 ^ e)) 0 false
      else SFdiv prec emax (S754_finite s p 0)
                           (S754_finite false (Z.to_pos (10 ^ (- e))) 0)
  | _ => S754_zero s
  end.

(** [digit (["_"] digit)*] after its first digit: accumulated value,
    number of digits read, and the rest of the input. *)
Fixpoint digitpart_tail (acc : Z) (n : Z) (s : string) : Z * Z * string :=
  match s with
  | String c s' =>
      match digit_val c with
      | Some v => digitpart_tail (10 * acc + v) (n + 1) s'
      | None =>
          if Ascii.eqb c "_" then
            match s' with
            | String c' s'' =>
                match digit_val c' with
                | Some v => digitpart_tail (10 * acc + v) (n + 1) s''
                | None => (acc, n, s)
                end
            | EmptyString => (acc, n, s)
            end
          else (acc, n, s)
      end
  | EmptyString => (acc, n, s)
  end.

Definition digitpart (acc : Z) (s : string) : option (Z * Z * string) :=
  match s with
  | String c s' =>
      match digit_val c with
      | Some v => Some (digitpart_tail (10 * acc + v) 1 s')
      | None => None
      end
  | EmptyString => None
  end.

Definition sign (s : string) : bool * string :=
  match s with
  | String "-" s' => (true, s')
  | String "+" s' => (false, s')
  | _ => (false, s)
  end.

(** [number ::= [digitpart] "." digitpart | digitpart ["."]]: the digits
    read as one integer and the count of those after the point. *)
Definition number (s : string) : option (Z * Z * string) :=
  match digitpart 0 s with
  | Some (m, _, String "." s') =>
      match digitpart m s' with
      | Some r => Some r
      | None => Some (m, 0, s')
      end
  | Some (m, _, s') => Some (m, 0, s')
  | None =>
      match s with
      | String "." s' => digitpart 0 s'
      | _ => None
      end
  end.

(** [exponent ::= ("e" | "E") [sign] digitpart], absent when the input is
    exhausted. *)
Definition exponent (s : string) : option Z :=
  match s with
  | EmptyString => Some 0
  | String c s' =>
      if Ascii.eqb c "e" || Ascii.eqb c "E" then
        let '(neg, s'') := sign s' in
        match digitpart 0 s'' with
        | Some (x, _, EmptyString) => Some (cond_Zopp neg x)
        | _ => None
        end
      else None
  end.

(** [float(s)] for a [str] argument: the number stands between blanks,
    which are fewer than the spaces of [str.strip]. *)
Definition float (s : string) : result spec_float :=
  let '(neg, body) := sign (strip_with is_blank s) in
  let l := lower body in
  if String.eqb l "inf" || String.eqb l "infinity" then Ret (S754_infinity neg)
  else if String.eqb l "nan" then Ret S754_nan
  else
    match number body with
    | Some (m, frac, rest) =>
        match exponent rest with
        | Some e => Ret (float_of_decimal neg m (e - frac))
        | None => Raise ValueError
        end
    | None => Raise ValueError
    end.

(** [int(x)] for a [float] argument: truncation towards zero. *)
Definition int (x : spec_float) : result Z :=
  match x with
  | S754_zero _ => Ret 0
  | S754_finite s m e => Ret (cond_Zopp s (Z.shiftl (Zpos m) e))
  | S754_infinity _ => Raise OverflowError
  | S754_nan => Raise ValueError
  end.

End Py.
Import Py.

(** ** Value Normalizer *)

Module Normalizer.

Definition million : spec_float := float_of_Z 1000000.
Definition thousand : spec_float := float_of_Z 1000.

(** [r'\d'] *)
Definition re_any_digit : regex := [One re_d].

(** [r'-?\d+\.?\d*\s*%?'] *)
Definition re_percent_shape : regex :=
  [Opt (Lit "-"); Plus re_d; Opt (Lit "."); Star re_d; Star re_s;
   Opt (Lit "%")].

(** [-?\d+\.?\d*], the pattern's single group. *)
Definition re_signed_number : regex :=
  [Opt (Lit "-"); Plus re_d; Opt (Lit "."); Star re_d].

Definition convert_currency_to_number (currency_str : string) : result Z :=
  if negb (bool_decide (is_Some (re_search re_any_digit currency_str)))
  then Ret 0
  else if negb (truthy currency_str) || String.eqb currency_str "-"
  then Ret 0
  else if negb (contains "€" currency_str)
          && negb (contains "m" currency_str)
          && negb (contains "k" currency_str)
  then
    try_except (x ← float currency_str; int x) is_ValueError (Ret 0)
  else
    let currency_str := strip (replace "€" "" currency_str) in
    if contains "m" currency_str then
      match float (replace "m" "" currency_str) with
      | Ret x => int (fmul x million)
      | Raise e => if is_ValueError e then Ret 0 else Raise e
      end
    else if contains "k" currency_str then
      match float (replace "k" "" currency_str) with
      | Ret x => int (fmul x thousand)
      | Raise e => if is_ValueError e then Ret 0 else Raise e
      end
    else
      match float currency_str with
      | Ret x => int x
      | Raise e => if is_ValueError e then Ret 0 else Raise e
      end.

Definition zero : spec_float := S754_zero false.

Definition parse_percentage (percentage_str : string) : result spec_float :=
  if negb (truthy percentage_str) || String.eqb percentage_str "-"
  then Ret zero
  else if negb (contains "%" percentage_str)
          && negb (bool_decide
                     (is_Some (re_search re_percent_shape percentage_str)))
  then Ret zero
  else
    try_except
      (match re_search re_signed_number percentage_str with
       | Some m => float (group percentage_str m)
       | None => Ret zero
       end)
      is_Exception (Ret zero).

End Normalizer.
Import Normalizer.

(** ** Date Sequencer *)

Module Dates.

(** A [datetime] at midnight: the script never sets a time of day. *)
Record datetime := { year : Z; month : Z; day : Z }.

Global Instance datetime_eq_dec : EqDecision datetime.
Proof. solve_decision. Defined.

Definition MINYEAR : Z := 1.
Definition MAXYEAR : Z := 9999.

Definition is_leap (y : Z) : bool :=
  (y mod 4 =? 0) && (negb (y mod 100 =? 0) || (y mod 400 =? 0)).

Definition days_in_month (y m : Z) : Z :=
  if m =? 2 then (if is_leap y then 29 else 28)
  else if (m =? 4) || (m =? 6) || (m =? 9) || (m =? 11) then 30
  else 31.

Definition valid_date (y m dd : Z) : bool :=
  (MINYEAR <=? y) && (y <=? MAXYEAR) && (1 <=? m) && (m <=? 12)
  && (1 <=? dd) && (dd <=? days_in_month y m).

(** The constructor [datetime(y, m, d)]. *)
Definition datetime_new (y m dd : Z) : result datetime :=
  if valid_date y m dd then Ret {| year := y; month := m; day := dd |}
  else Raise ValueError.

(** [dt.replace(day=dd)] *)
Definition replace_day (dt : datetime) (dd : Z) : result datetime :=
  datetime_new (year dt) (month dt) dd.

(** [a <= b] *)
Definition dt_le (a b : datetime) : bool :=
  (year a <? year b)
  || (year a =? year b)
     && ((month a <? month b)
         || (month a =? month b) && (day a <=? day b)).

Definition dt_lt (a b : datetime) : bool := dt_le a b && negb (dt_le b a).

(** *** [strptime(s, "%Y-%m-%d")]

    [_strptime] turns the format into the regular expression
    [(\d\d\d\d)-(1[0-2]|0[1-9]|[1-9])-(3[0-1]|[1-2]\d|0[1-9]|[1-9]| [1-9])],
    matches it at the start of the input, rejects unconverted trailing
    data, and hands the three numbers to the [datetime] constructor. *)

Definition in_range (lo hi : Z) (c : ascii) : option Z :=
  match digit_val c with
  | Some v => if (lo <=? v) && (v <=? hi) then Some v else None
  | None => None
  end.

Definition digit_of (s : string) : option (Z * string) :=
  match s with
  | String c s' => v ← digit_val c; Some (v, s')
  | EmptyString => None
  end.

Definition year_field (s : string) : option (Z * string) :=
  '(a, s) ← digit_of s;
  '(b, s) ← digit_of s;
  '(c, s) ← digit_of s;
  '(e, s) ← digit_of s;
  Some (1000 * a + 100 * b + 10 * c + e, s).

(** One alternative of a two-character field: a digit in [lo1..hi1], then
    one in [lo2..hi2]. *)
Definition two_chars (lo1 hi1 lo2 hi2 : Z) (s : string)
    : option (Z * string) :=
  match s with
  | String c1 (String c2 s') =>
      a ← in_range lo1 hi1 c1; b ← in_range lo2 hi2 c2;
      Some (10 * a + b, s')
  | _ => None
  end.

Definition one_char (lo hi : Z) (s : string) : option (Z * string) :=
  match s with
  | String c s' => a ← in_range lo hi c; Some (a, s')
  | EmptyString => None
  end.

Definition space_then (lo hi : Z) (s : string) : option (Z * string) :=
  match s with
  | String " " s' => one_char lo hi s'
  | _ => None
  end.

(** First alternative that matches, in the order of the pattern. *)
Fixpoint alternatives (alts : list (string → option (Z * string)))
    (s : string) : option (Z * string) :=
  match alts with
  | [] => None
  | p :: alts' =>
      match p s with
      | Some r => Some r
      | None => alternatives alts' s
      end
  end.

(** [1[0-2]|0[1-9]|[1-9]] *)
Definition month_field : string → option (Z * string) :=
  alternatives [two_chars 1 1 0 2; two_chars 0 0 1 9; one_char 1 9].

(** [3[0-1]|[1-2]\d|0[1-9]|[1-9]| [1-9]] *)
Definition day_field : string → option (Z * string) :=
  alternatives [two_chars 3 3 0 1; two_chars 1 2 0 9; two_chars 0 0 1 9;
                one_char 1 9; space_then 1 9].

Definition dash (s : string) : option string :=
  match s with
  | String "-" s' => Some s'
  | _ => None
  end.

Definition strptime_fields (s : string) : option (Z * Z * Z * string) :=
  '(y, s) ← year_field s;
  s ← dash s;
  '(m, s) ← month_field s;
  s ← dash s;
  '(dd, s) ← day_field s;
  Some (y, m, dd, s).

Definition strptime (s : string) : result datetime :=
  match strptime_fields s with
  | Some (y, m, dd, EmptyString) => datetime_new y m dd
  | _ => Raise ValueError
  end.

(** *** [strftime("%Y-%m-%d")] *)

Definition digit_char (k : Z) : ascii := ascii_of_N (48 + Z.to_N k).

Definition pad2 (n : Z) (rest : string) : string :=
  String (digit_char (n / 10 mod 10)) (String (digit_char (n mod 10)) rest).

Definition pad4 (n : Z) (rest : string) : string :=
  String (digit_char (n / 1000 mod 10))
    (String (digit_char (n / 100 mod 10)) (pad2 n rest)).

Section Platform.

(** [%Y] is rendered by the C library, and libraries differ on years below
    1000: some fill the year with zeros to four digits ([zero_fill]),
    others, glibc among them, write its plain decimal. *)
Variable zero_fill : bool.

Definition year_text (y : Z) (rest : string) : string :=
  if zero_fill then pad4 y rest else pretty y +:+ rest.

Definition strftime (dt : datetime) : string :=
  year_text (year dt)
    (String "-" (pad2 (month dt) (String "-" (pad2 (day dt) "")))).

(** *** [generate_date_range] *)

(** The adjustment of [start] to the 1st or the 15th. *)
Definition snap (start : datetime) : result datetime :=
  if day start <? 15 then replace_day start 1 else replace_day start 15.

(** The body of the [while] loop after the [append]. *)
Definition advance (current : datetime) : result datetime :=
  if day current =? 1 then replace_day current 15
  else if month current =? 12 then datetime_new (year current + 1) 1 1
  else datetime_new (year current) (month current + 1) 1.

(** [while current <= end: ...], run for at most [fuel] iterations;
    [None] when the loop is still running after that many. *)
Fixpoint while_loop (fuel : nat) (current end_ : datetime)
    (dates : list string) : option (result (list string)) :=
  if dt_le current end_ then
    match fuel with
    | O => None
    | S fuel' =>
        let dates := dates ++ [strftime current] in
        match advance current with
        | Ret current' => while_loop fuel' current' end_ dates
        | Raise e => Some (Raise e)
        end
    end
  else Some (Ret dates).

(** Position of a date on the half-month grid. *)
Definition half_month (dt : datetime) : Z :=
  2 * (12 * year dt + month dt) + (if day dt <? 15 then 0 else 1).

(** Iterations the loop can need: one per grid point from [start] to
    [end_]. *)
Definition iterations (start end_ : datetime) : nat :=
  Z.to_nat (half_month end_ - half_month start + 1).

Definition generate_date_range (start_date end_date : string)
    : option (result (list string)) :=
  match strptime start_date with
  | Raise e => Some (Raise e)
  | Ret start =>
      match strptime end_date with
      | Raise e => Some (Raise e)
      | Ret end_ =>
          match snap start with
          | Raise e => Some (Raise e)
          | Ret start => while_loop (iterations start end_) start end_ []
          end
      end
  end.

End Platform.

End Dates.

Import Dates.

(** ** Table Extractor *)

Module Extractor.

(** What the script reads of a [th] or [td] element: [get('class')] (the
    empty list when the attribute is absent) and [get_text(strip=True)]. *)
Record cell := { cell_class : list string; cell_text : string }.

(** A [tr] of the table body: its classes and its [td] elements. *)
Record tr := { tr_class : list string; tr_cells : list cell }.

(** The table found by [select_one]: the [th] elements of its
    [thead tr], if there is one, and its [tbody tr] rows. *)
Record table := { thead_tr : option (list cell); tbody_trs : list tr }.

(** [cls and name in cls] *)
Definition has_class (name : string) (cls : list string) : bool :=
  match cls with
  | [] => false
  | _ => bool_decide (name ∈ cls)
  end.

(** [r'Value \w+ \d+'] *)
Definition re_value_date : regex :=
  lits "Value " ++ [Plus re_w; One (Lit " "); Plus re_d].

Definition canonical_header (header_text : string) : string :=
  if negb (truthy header_text) then "Rank"
  else if contains "Club" header_text then "Club"
  else if bool_decide (is_Some (re_search re_value_date header_text))
          || contains "value" (lower header_text)
  then "Value"
  else header_text.

(** The [for th in header_row.select('th')] loop. *)
Fixpoint collect_headers (ths : list cell) : list string :=
  match ths with
  | [] => []
  | th :: ths' =>
      if has_class "hide" (cell_class th) then collect_headers ths'
      else canonical_header (cell_text th) :: collect_headers ths'
  end.

(** One iteration of the [for h in headers] loop, on the pair
    ([final_headers], [value_count]). *)
Definition dedup_step (st : list string * Z) (h : string)
    : list string * Z :=
  let '(final_headers, value_count) := st in
  if String.eqb h "Value" then
    let value_count := value_count + 1 in
    if 1 <? value_count
    then (final_headers ++ ["Value_" +:+ pretty value_count], value_count)
    else (final_headers ++ ["Value"], value_count)
  else if negb (bool_decide (h ∈ final_headers))
  then (final_headers ++ [h], value_count)
  else (final_headers, value_count).

Definition dedup_state (headers : list string) : list string * Z :=
  foldl dedup_step ([], 0) headers.

Definition final_headers (headers : list string) : list string :=
  fst (dedup_state headers).

(** A cell of a result row. *)
Inductive value :=
| VStr (s : string)
| VInt (n : Z)
| VFloat (x : spec_float).

Definition value_truthy (v : value) : bool :=
  match v with
  | VStr s => truthy s
  | VInt n => negb (n =? 0)
  | VFloat (S754_zero _) => false
  | VFloat _ => true
  end.

(** The [for td in row.select('td')] loop. *)
Fixpoint cells_data (tds : list cell) : list string :=
  match tds with
  | [] => []
  | td :: tds' =>
      if has_class "no-border-rechts" (cell_class td)
         && has_class "zentriert" (cell_class td)
      then cells_data tds'
      else cell_text td :: cells_data tds'
  end.

(** [for header in headers: row_data[header] = ""] *)
Definition empty_row (headers : list string) : gmap string value :=
  foldl (λ row_data header, <[header := VStr ""]> row_data) ∅ headers.

(** The value stored for [header] from the text of its cell. *)
Definition convert_cell (header text : string) : result value :=
  if contains "Value" header then VInt <$> convert_currency_to_number text
  else if contains "%" header then VFloat <$> parse_percentage text
  else Ret (VStr text).

(** [for i, header in enumerate(headers)], from index [i] on. *)
Fixpoint fill_row (headers : list string) (i : nat) (cells : list string)
    (row_data : gmap string value) : result (gmap string value) :=
  match headers with
  | [] => Ret row_data
  | header :: headers' =>
      match cells !! i with
      | Some text =>
          v ← convert_cell header text;
          fill_row headers' (S i) cells (<[header := v]> row_data)
      | None => fill_row headers' (S i) cells row_data
      end
  end.

(** [row_data and "Club" in row_data and row_data["Club"]] *)
Definition has_club (row_data : gmap string value) : bool :=
  negb (bool_decide (row_data = ∅))
  && match row_data !! "Club" with
     | Some v => value_truthy v
     | None => false
     end.

(** The body of [for row in table.select('tbody tr')]: the row appended
    to [teams_data], or [None] when the iteration appends nothing. *)
Definition process_row (headers : list string) (row : tr)
    : result (option (gmap string value)) :=
  if has_class "thead" (tr_class row) || has_class "tfoot" (tr_class row)
  then Ret None
  else
    let cells := cells_data (tr_cells row) in
    if (length cells <? 2)%nat then Ret None
    else
      row_data ← fill_row headers O cells (empty_row headers);
      if has_club row_data then Ret (Some row_data) else Ret None.

Fixpoint process_rows (headers : list string) (rows : list tr)
    (teams_data : list (gmap string value))
    : result (list (gmap string value)) :=
  match rows with
  | [] => Ret teams_data
  | row :: rows' =>
      r ← process_row headers row;
      match r with
      | Some row_data =>
          process_rows headers rows' (teams_data ++ [row_data])
      | None => process_rows headers rows' teams_data
      end
  end.

(** The dictionary [{"headers": ..., "data": ...}]. *)
Record extraction := {
  headers : list string;
  data : list (gmap string value)
}.

(** From [soup.select_one(...)] to the [return] inside the [try]. *)
Definition extract (found : option table) : result (option extraction) :=
  match found with
  | None => Ret None
  | Some t =>
      match thead_tr t with
      | None => Ret None
      | Some ths =>
          let headers := final_headers (collect_headers ths) in
          teams_data ← process_rows headers (tbody_trs t) [];
          Ret (Some {| headers := headers; data := teams_data |})
      end
  end.

(** The date check at the top of [scrape_bundesliga_market_values]: the
    value of [date] after it. *)
Definition validate_date (date : option string) : result (option string) :=
  match date with
  | Some s =>
      if truthy s then
        try_except
          (parsed_date ← strptime s;
           if bool_decide (day parsed_date ∈ [1; 15]) then Ret date
           else Raise ValueError)
          is_ValueError (Ret None)
      else Ret date
  | None => Ret date
  end.

Definition base_url : string :=
  "https://www.transfermarkt.com/bundesliga/marktwerteverein/wettbewerb/L1".

Definition build_url (date : option string) : string :=
  match date with
  | Some s => if truthy s then base_url +:+ "/stichtag/" +:+ s else base_url
  | None => base_url
  end.

Section Scrape.

(** The collaborators: [requests.get(url, ...)] with
    [raise_for_status] and [.text]; reading [paste.txt]; and
    [BeautifulSoup(content, 'html.parser')] followed by [select_one]. *)
Context {markup : Type}.
Variable http_get : string → result markup.
Variable read_local : result markup.
Variable select_table : markup → option table.

Definition scrape_bundesliga_market_values (date : option string)
    (use_local_file : bool) : result (option extraction) :=
  date ← validate_date date;
  let url := build_url date in
  try_except
    (content ← (if use_local_file then read_local else http_get url);
     extract (select_table content))
    is_Exception (Ret None).

End Scrape.

End Extractor.
Import Extractor.

(** ** CSV sink *)

Module Sink.

(** One line of the file, as the list of fields handed to the [csv]
    writer; quoting and line termination are the [csv] module's. *)
Definition record := list value.

(** The files that exist, each with the lines written to it so far, and
    the paths on which [open(filename, 'a')] raises [OSError]. *)
Record store := {
  files : gmap string (list record);
  unwritable : gset string
}.

(** The [data] argument when it is a dictionary: the values under its
    ["headers"] and ["data"] keys, where present. *)
Record data_dict := {
  get_headers : option (list string);
  get_data : option (list (gmap string value))
}.

Definition of_extraction (e : extraction) : data_dict :=
  {| get_headers := Some (headers e); get_data := Some (data e) |}.

(** [os.path.exists(filename)] *)
Definition exists_ (fs : store) (filename : string) : bool :=
  bool_decide (is_Some (files fs !! filename)).

(** [DictWriter.writeheader]: the field names as a line. *)
Definition header_line (fieldnames : list string) : record :=
  VStr <$> fieldnames.

(** [DictWriter._dict_to_list] with the default [extrasaction='raise']
    and [restval='']: the fields of the line, unless the row has a key
    that is no field name. *)
Definition dict_to_list (fieldnames : list string)
    (rowdict : gmap string value) : result record :=
  if bool_decide (dom rowdict ⊆ list_to_set fieldnames)
  then Ret ((λ key, default (VStr "") (rowdict !! key)) <$> fieldnames)
  else Raise ValueError.

(** [sys.get_int_max_str_digits()], the number of decimal digits beyond
    which [str] refuses an [int]; the script leaves it at its default. *)
Definition int_max_str_digits : Z := 4300.

(** Whether the [csv] writer gets a text for the field: [str] of an [int]
    with too many digits raises [ValueError]. *)
Definition has_text (v : value) : bool :=
  match v with
  | VInt n => Z.abs n <? 10 ^ int_max_str_digits
  | _ => true
  end.

(** [writer.writerow(fields)] on the lines of the open file: the line is
    put together field by field and written whole, or not at all when a
    field has no text. *)
Definition writerow (fields : record) (content : list record)
    : result (list record) :=
  if forallb has_text fields then Ret (content ++ [fields])
  else Raise ValueError.

(** [{"Date": date} if date else {"Date": ""}] *)
Definition date_cell (date : option string) : value :=
  match date with
  | Some s => if truthy s then VStr s else VStr ""
  | None => VStr ""
  end.

(** [row_with_date.update(row)]: the keys of [row] win. *)
Definition row_with_date (date : option string) (row : gmap string value)
    : gmap string value :=
  row ∪ {[ "Date" := date_cell date ]}.

(** The [for row in data["data"]] loop on the lines of the open file;
    lines written before an exception stay written. *)
Fixpoint write_rows (fieldnames : list string) (date : option string)
    (rows : list (gmap string value)) (content : list record)
    : list record * result unit :=
  match rows with
  | [] => (content, Ret ())
  | row :: rows' =>
      match line ← dict_to_list fieldnames (row_with_date date row);
            writerow line content with
      | Ret content => write_rows fieldnames date rows' content
      | Raise e => (content, Raise e)
      end
  end.

(** [open(filename, 'a', ...)]: the lines already in the file, none for a
    file that the call creates. *)
Definition open_append (fs : store) (filename : string)
    : result (list record) :=
  if bool_decide (filename ∈ unwritable fs) then Raise OSError
  else Ret (default [] (files fs !! filename)).

(** The result and the store after the call.  The first [match] is the
    guard on [data]; any exception of the [try] block gives [False], and
    the file keeps what the block wrote before it. *)
Definition save_to_csv (data : option data_dict) (filename : string)
    (date : option string) (fs : store) : bool * store :=
  match data with
  | Some {| get_headers := Some data_headers; get_data := Some data_rows |} =>
      let headers := "Date" :: data_headers in
      let file_exists := exists_ fs filename in
      match open_append fs filename with
      | Raise _ => (false, fs)
      | Ret content =>
          let content :=
            if negb file_exists then content ++ [header_line headers]
            else content in
          let '(content, outcome) :=
            write_rows headers date data_rows content in
          (match outcome with Ret _ => true | Raise _ => false end,
           {| files := <[filename := content]> (files fs);
              unwritable := unwritable fs |})
      end
  | _ => (false, fs)
  end.

End Sink.
Import Sink.

(** ** Snapshot Orchestrator *)

Module Main.

(** The parsed command line. *)
Record args := {
  date_from : string;
  date_to : string;
  output_file : string;
  use_local_file : bool;
  delay : Z
}.

(** What [main] acts on: the file store and the pauses taken so far,
    oldest first. *)
Record world := { disk : store; pauses : list Z }.

(** [time.sleep(secs)] for an [int].  The length is first turned into
    nanoseconds in 64 bits, an [OverflowError] beyond 9223372036 seconds
    either way; a negative length is then a [ValueError]; the pause
    itself is the operating system's, [os_sleep], which can refuse it. *)
Definition sleep (os_sleep : Z → result unit) (secs : Z) (w : world)
    : world * result unit :=
  if (secs <? -9223372036) || (9223372036 <? secs)
  then (w, Raise OverflowError)
  else if secs <? 0 then (w, Raise ValueError)
  else
    match os_sleep secs with
    | Ret _ => ({| disk := disk w; pauses := pauses w ++ [secs] |}, Ret tt)
    | Raise e => (w, Raise e)
    end.

Section Run.

(** The collaborators of the scraper and the operating system's pause as
    the [i]-th iteration of the loop finds them, the rendering of [%Y],
    and the arguments. *)
Context {markup : Type}.
Variable http_get : nat → string → result markup.
Variable read_local : nat → result markup.
Variable select_table : markup → option table.
Variable os_sleep : nat → Z → result unit.
Variable zero_fill : bool.
Variable a : args.

(** [if data: save_to_csv(data, args.output_file, date)]; the dictionary
    the scraper returns is never empty, so only [None] is false. *)
Definition save_snapshot (data : option extraction) (date : string)
    (w : world) : world :=
  match data with
  | Some res =>
      {| disk := (save_to_csv (Some (of_extraction res)) (output_file a)
                    (Some date) (disk w)).2;
         pauses := pauses w |}
  | None => w
  end.

(** [for i, date in enumerate(dates)] from index [i] on, [len] being
    [len(dates)]; an exception leaves the world as it was when raised. *)
Fixpoint for_dates (len : nat) (i : nat) (dates : list string) (w : world)
    : world * result unit :=
  match dates with
  | [] => (w, Ret tt)
  | date :: dates' =>
      match scrape_bundesliga_market_values (http_get i) (read_local i)
              select_table (Some date) (use_local_file a) with
      | Raise e => (w, Raise e)
      | Ret data =>
          let w := save_snapshot data date w in
          if (Z.of_nat i <? Z.of_nat len - 1) && negb (use_local_file a)
          then
            match sleep (os_sleep i) (delay a) w with
            | (w, Ret _) => for_dates len (S i) dates' w
            | (w, Raise e) => (w, Raise e)
            end
          else for_dates len (S i) dates' w
      end
  end.

(** [main], after the arguments are parsed; [None] when the loop of
    [generate_date_range] is still running. *)
Definition main (w : world) : option (world * result unit) :=
  match generate_date_range zero_fill (date_from a) (date_to a) with
  | None => None
  | Some (Raise e) => Some (w, Raise e)
  | Some (Ret dates) => Some (for_dates (length dates) O dates w)
  end.

End Run.

End Main.
Import Main.

(** * Vocabulary of the properties *)

(** The label given to the [k]-th ["Value"] column. *)
Definition value_label (k : Z) : string :=
  if 1 <? k then "Value_" +:+ pretty k else "Value".

(** Number of occurrences of ["Value"] among canonical labels. *)
Definition occurrences (hs : list string) : nat :=
  length (filter (λ h, h = "Value") hs).

(** A label that is not of the form ["Value_..."]. *)
Definition unnumbered (h : string) : Prop :=
  ∀ suffix, h ≠ "Value_" +:+ suffix.

(** The value under ["Club"], when there is one, is a text. *)
Definition club_is_text (row_data : gmap string value) : Prop :=
  ∀ v, row_data !! "Club" = Some v → ∃ s, v = VStr s.

(** A table with one club row, holding a layout cell, and one row too
    short to count; and the extraction it yields. *)
Definition sample_table : table :=
  {| thead_tr :=
       Some [ {| cell_class := []; cell_text := "" |};
              {| cell_class := []; cell_text := "Club" |};
              {| cell_class := ["rechts"]; cell_text := "Value Oct 1, 2024" |} ];
     tbody_trs :=
       [ {| tr_class := ["odd"];
            tr_cells :=
              [ {| cell_class := ["zentriert"]; cell_text := "1" |};
                {| cell_class := ["zentriert"; "no-border-rechts"];
                   cell_text := "" |};
                {| cell_class := ["hauptlink"]; cell_text := "Bayern Munich" |};
                {| cell_class := ["rechts"]; cell_text := "€944.70m" |} ] |};
         {| tr_class := ["even"];
            tr_cells := [ {| cell_class := []; cell_text := "2" |} ] |} ] |}.

Definition sample_extraction : extraction :=
  {| headers := ["Rank"; "Club"; "Value"];
     data := [ {[ "Rank" := VStr "1"; "Club" := VStr "Bayern Munich";
                  "Value" := VInt 944700000 ]} ] |}.

(** The line written for [row]: its value under each field name, the
    empty text where it has none. *)
Definition line_of (fieldnames : list string) (date : option string)
    (row : gmap string value) : record :=
  (λ key, default (VStr "") (row_with_date date row !! key)) <$> fieldnames.

(** The lines of one snapshot. *)
Definition block (fieldnames : list string) (date : option string)
    (rows : list (gmap string value)) : list record :=
  line_of fieldnames date <$> rows.

(** A row whose keys are all field names ([DictWriter] raises on any
    other). *)
Definition well_keyed (fieldnames : list string) (row : gmap string value)
    : Prop :=
  dom row ⊆ list_to_set fieldnames.

Global Instance well_keyed_dec (fieldnames : list string)
    (row : gmap string value) : Decision (well_keyed fieldnames row).
Proof. unfold well_keyed. apply _. Defined.

(** A value whose decimal text, when it is an integer, has at most 4300
    digits; and a row of such values, which is what the [csv] writer can
    turn into a line. *)
Definition short_int (v : value) : Prop :=
  match v with
  | VInt n => Z.abs n < 10 ^ 4300
  | _ => True
  end.

Global Instance short_int_dec (v : value) : Decision (short_int v).
Proof. destruct v; simpl; apply _. Defined.

Definition printable (row : gmap string value) : Prop :=
  map_Forall (λ _, short_int) row.

Global Instance printable_dec (row : gmap string value)
    : Decision (printable row).
Proof. unfold printable. apply _. Defined.

(** A finite float has a mantissa below [2 ^ 53] and an exponent of at
    most 971. *)
Definition bounded_float (x : spec_float) : Prop :=
  match x with
  | S754_finite _ m e => Z.pos m < 2 ^ prec ∧ e <= emax - prec
  | _ => True
  end.



(** A date the [datetime] constructor accepts. *)
Definition valid (dt : datetime) : Prop :=
  valid_date (year dt) (month dt) (day dt) = true.

(** A snapshot date: the 1st or the 15th. *)
Definition on_grid (dt : datetime) : Prop := day dt = 1 ∨ day dt = 15.

(** The last snapshot date a [datetime] can hold. *)
Definition last_point : datetime :=
  {| year := MAXYEAR; month := 12; day := 15 |}.

(** Texts made of ASCII characters and euro signs.  On these the model
    reads digits and spaces as Python does; elsewhere Python also takes
    the decimal digits and the spaces of the other scripts. *)
Fixpoint plain (s : string) : bool :=
  match s with
  | EmptyString => true
  | String c s' =>
      if (N_of_ascii c <? 128)%N then plain s'
      else
        match s with
        | String "226" (String "130" (String "172" s'')) => plain s''
        | _ => false
        end
  end.

(** Whether some character of the text is a digit. *)
Fixpoint has_digit (s : string) : bool :=
  match s with
  | String c s' => is_digit c || has_digit s'
  | EmptyString => false
  end.

(** Whether the cells the extractor converts, those under a label with
    ["Value"] or ["%"], hold plain texts: in a body row, and in every
    body row of a table. *)
Definition plain_cells (hs : list string) (row : tr) : bool :=
  forallb (λ '(h, text),
             negb (contains "Value" h || contains "%" h) || plain text)
    (zip hs (cells_data (tr_cells row))).

Definition plain_table (hs : list string) (t : table) : bool :=
  forallb (plain_cells hs) (tbody_trs t).

(** A table whose second row holds a market value too large for a
    float. *)
Definition overflow_table : table :=
  {| thead_tr :=
       Some [ {| cell_class := []; cell_text := "Club" |};
              {| cell_class := []; cell_text := "Value Oct 1, 2024" |} ];
     tbody_trs :=
       [ {| tr_class := ["odd"];
            tr_cells :=
              [ {| cell_class := []; cell_text := "Bayern Munich" |};
                {| cell_class := []; cell_text := "€944.70m" |} ] |};
         {| tr_class := ["even"];
            tr_cells :=
              [ {| cell_class := []; cell_text := "Borussia Dortmund" |};
                {| cell_class := []; cell_text := "1e999" |} ] |} ] |}.

(** A run over 2024-10-01, 2024-10-15 and 2024-11-01 that pauses five
    seconds, and the world before it. *)
Definition sample_args : args :=
  {| date_from := "2024-10-01"; date_to := "2024-11-01";
     output_file := "out.csv"; use_local_file := false; delay := 5 |}.

Definition sample_dates : list string :=
  ["2024-10-01"; "2024-10-15"; "2024-11-01"].

Definition new_world : world :=
  {| disk := {| files := ∅; unwritable := ∅ |}; pauses := [] |}.

(** A network on which every retrieval fails, one that serves a page
    each time, and an operating system that takes every pause. *)
Definition network_down : nat → string → result unit :=
  λ _ _, Raise OSError.

Definition page_served : nat → string → result unit :=
  λ _ _, Ret tt.

Definition pause_taken : nat → Z → result unit :=
  λ _ _, Ret tt.


(** A world whose output file holds an earlier snapshot. *)
Definition old_lines : list record :=
  [ VStr <$> ["Date"; "Rank"; "Club"; "Value"];
    [ VStr "2024-09-15"; VStr "1"; VStr "Bayern Munich";
      VInt 930000000 ] ].

Definition old_world : world :=
  {| disk := {| files := {[ "out.csv" := old_lines ]}; unwritable := ∅ |};
     pauses := [] |}.

(** * Properties *)

(** ** Value Normalizer *)

(** The literal [5.1] denotes the binary64 nearest to 51/10: the mantissa
    and exponent computed by [float_of_decimal] are within half a unit in
    the last place of it. *)
Remark float_5_1_nearest :
  float_of_decimal false 51 (-1) = S754_finite false 5742089524897382 (-50)
  ∧ 2 * Z.abs (10 * 5742089524897382 - 51 * 2 ^ 50) <= 10.
Proof. split; [vm_compute; reflexivity | lia]. Qed.

(** C1. The normalizers on the literal fixtures: ["€944.70m"] gives
    944700000, ["€500k"] gives 500000, and ["-"], the empty string and
    ["abc"] give 0; ["5.1 %"] gives the float 5.1, ["-"] gives 0.0 and
    ["-3.2%"] gives the float -3.2. *)
Theorem normalizer_fixtures :
  convert_currency_to_number "€944.70m" = Ret 944700000
  ∧ convert_currency_to_number "€500k" = Ret 500000
  ∧ convert_currency_to_number "-" = Ret 0
  ∧ convert_currency_to_number "" = Ret 0
  ∧ convert_currency_to_number "abc" = Ret 0
  ∧ parse_percentage "5.1 %" = Ret (float_of_decimal false 51 (-1))
  ∧ parse_percentage "-" = Ret (S754_zero false)
  ∧ parse_percentage "-3.2%" = Ret (float_of_decimal true 32 (-1)).
Proof. repeat split; vm_compute; reflexivity. Qed.

(** [parse_percentage] returns on every string: whatever its [try] block
    raises is caught. *)
Lemma parse_percentage_total (percentage_str : string) :
  ∃ x, parse_percentage percentage_str = Ret x.
Proof.
  unfold parse_percentage.
  destruct (negb (truthy percentage_str) || _); [by eexists|].
  destruct (negb (contains "%" percentage_str) && _); [by eexists|].
  destruct (re_search re_signed_number percentage_str) as [m|]; simpl;
    [|by eexists].
  destruct (float (group percentage_str m)); simpl; by eexists.
Qed.

(** [float] raises nothing but [ValueError]. *)
Lemma float_raises_ValueError (s : string) (e : exn) :
  float s = Raise e → e = ValueError.
Proof.
  unfold float. destruct (sign (strip_with is_blank s)) as [neg body].
  repeat case_match; congruence.
Qed.

(** C2. [convert_currency_to_number] does not return on ["1e999"]: the
    text has a digit and no currency marker, [float] yields infinity, and
    [int] of it raises [OverflowError], which the [except ValueError]
    clause lets through.  The final [int(value)], outside every [try],
    raises the same way on ["€1e999m"]. *)
Theorem convert_currency_to_number_overflow :
  float "1e999" = Ret (S754_infinity false)
  ∧ convert_currency_to_number "1e999" = Raise OverflowError
  ∧ convert_currency_to_number "€1e999m" = Raise OverflowError.
Proof. repeat split; vm_compute; reflexivity. Qed.

(** *** The size of a converted value *)

(** Rounding keeps a mantissa that is not negative so. *)
Lemma shr_1_nonneg (mrs : shr_record) :
  0 <= shr_m mrs → 0 <= shr_m (shr_1 mrs).
Proof.
  destruct mrs as [m r s]. simpl.
  destruct m as [|[p|p|]|[p|p|]]; simpl; lia.
Qed.

Lemma iter_pos_shr_1_nonneg (p : positive) (mrs : shr_record) :
  0 <= shr_m mrs → 0 <= shr_m (SpecFloat.iter_pos shr_1 p mrs).
Proof.
  revert mrs. induction p as [p IH|p IH|]; intros mrs Hm; simpl.
  - apply IH, IH. by apply shr_1_nonneg.
  - by apply IH, IH.
  - by apply shr_1_nonneg.
Qed.

Lemma shr_fexp_nonneg (m e : Z) (l : location) :
  0 <= m → 0 <= shr_m (shr_fexp prec emax m e l).1.
Proof.
  intros Hm. unfold shr_fexp, shr.
  assert (0 <= shr_m (shr_record_of_loc m l)) as Hrec
    by (destruct l as [|[]]; simpl; lia).
  destruct (fexp prec emax (Zdigits2 m + e) - e); simpl; try done.
  by apply iter_pos_shr_1_nonneg.
Qed.

(** One shift halves the mantissa, [p] shifts divide it by [2 ^ p]. *)
Lemma shr_1_below (mrs : shr_record) (b : Z) :
  0 <= shr_m mrs → shr_m mrs < 2 * b → shr_m (shr_1 mrs) < b.
Proof.
  destruct mrs as [m r s]. simpl.
  destruct m as [|[p|p|]|[p|p|]]; simpl; lia.
Qed.

Lemma iter_pos_shr_1_below (p : positive) (mrs : shr_record) (b : Z) :
  0 <= shr_m mrs → shr_m mrs < 2 ^ Z.pos p * b →
  shr_m (SpecFloat.iter_pos shr_1 p mrs) < b.
Proof.
  revert mrs b. induction p as [p IH|p IH|]; intros mrs b H0 Hm; simpl.
  - assert (2 ^ Z.pos p~1 = 2 ^ Z.pos p * 2 ^ Z.pos p * 2) as Hpow
      by (replace (Z.pos p~1) with (Z.pos p + Z.pos p + 1) by lia;
          by rewrite !Z.pow_add_r, Z.pow_1_r by lia).
    rewrite Hpow in Hm.
    apply IH; [by apply iter_pos_shr_1_nonneg, shr_1_nonneg|].
    apply IH; [by apply shr_1_nonneg|].
    apply shr_1_below; [done|]. lia.
  - assert (2 ^ Z.pos p~0 = 2 ^ Z.pos p * 2 ^ Z.pos p) as Hpow
      by (replace (Z.pos p~0) with (Z.pos p + Z.pos p) by lia;
          by rewrite Z.pow_add_r by lia).
    rewrite Hpow in Hm.
    apply IH; [by apply iter_pos_shr_1_nonneg|].
    apply IH; [done|]. lia.
  - apply shr_1_below; [done|]. by rewrite Z.pow_1_r in Hm.
Qed.

Lemma digits2_pos_above (p : positive) : Z.pos p < 2 ^ Z.pos (digits2_pos p).
Proof.
  induction p as [p IH|p IH|]; simpl; [| |done];
    rewrite Pos2Z.inj_succ, Z.pow_succ_r by lia; lia.
Qed.

Lemma Zdigits2_above (m : Z) : 0 <= m → m < 2 ^ Zdigits2 m.
Proof.
  destruct m as [|p|p]; [done| |lia]. intros _. apply digits2_pos_above.
Qed.

(** After the shift to the exponent of its format a mantissa has at most
    [prec] bits. *)
Lemma shr_fexp_below (m e : Z) (l : location) :
  0 <= m → shr_m (shr_fexp prec emax m e l).1 < 2 ^ prec.
Proof.
  intros Hm. pose proof (Zdigits2_above m Hm) as Hd.
  assert (0 <= Zdigits2 m) as Hd0 by (by destruct m).
  unfold shr_fexp, shr.
  assert (shr_m (shr_record_of_loc m l) = m) as Hrec
    by (by destruct l as [|[]]).
  assert (Zdigits2 m - prec <= fexp prec emax (Zdigits2 m + e) - e) as Hn
    by (unfold fexp; lia).
  destruct (fexp prec emax (Zdigits2 m + e) - e) as [|n|n] eqn:Hshift;
    simpl.
  - rewrite Hrec. eapply Z.lt_le_trans; [exact Hd|].
    apply Z.pow_le_mono_r; lia.
  - apply iter_pos_shr_1_below; [by rewrite Hrec|].
    rewrite Hrec, <-Z.pow_add_r by done.
    eapply Z.lt_le_trans; [exact Hd|]. apply Z.pow_le_mono_r; lia.
  - rewrite Hrec. eapply Z.lt_le_trans; [exact Hd|].
    apply Z.pow_le_mono_r; lia.
Qed.

Lemma binary_round_aux_bounded (s : bool) (m e : Z) (l : location) :
  0 <= m → bounded_float (binary_round_aux prec emax s m e l).
Proof.
  intros Hm. unfold binary_round_aux.
  pose proof (shr_fexp_nonneg m e l Hm) as H1.
  destruct (shr_fexp prec emax m e l) as [mrs' e']. simpl in H1.
  assert (0 <= round_nearest_even (shr_m mrs') (loc_of_shr_record mrs'))
    as H2.
  { unfold round_nearest_even.
    destruct (loc_of_shr_record mrs') as [|[]]; try lia.
    destruct (Z.even (shr_m mrs')); lia. }
  pose proof (shr_fexp_below _ e' loc_Exact H2) as H3.
  destruct (shr_fexp prec emax _ e' loc_Exact) as [mrs'' e'']. simpl in H3.
  destruct (shr_m mrs'') as [|q|q]; [done| |done].
  destruct (e'' <=? emax - prec) eqn:He; [|done].
  split; [done|]. by apply Z.leb_le.
Qed.

Lemma fmul_bounded (x : spec_float) (p : positive) (e : Z) :
  bounded_float (fmul x (S754_finite false p e)).
Proof.
  destruct x as [s|s| |s m ex]; try done.
  apply binary_round_aux_bounded. lia.
Qed.

Lemma float_of_decimal_bounded (s : bool) (m e : Z) :
  bounded_float (float_of_decimal s m e).
Proof.
  unfold float_of_decimal. destruct m as [|p|p]; try done.
  destruct (0 <=? e).
  - unfold binary_normalize.
    destruct (cond_Zopp s (Z.pos p * 10 ^ e)) as [|q|q]; [done|..];
      unfold binary_round;
      destruct (shl_align _ _ _) as [mz ez];
      apply binary_round_aux_bounded; lia.
  - unfold SFdiv, SFdiv_core_binary.
    set (m' := match _ with Z.pos _ => _ | _ => _ end).
    assert (0 <= m') as Hm'.
    { unfold m'. destruct (_ - _ - _); try lia.
      rewrite Z.shiftl_mul_pow2 by lia. lia. }
    pose proof (Z.div_pos m' (Z.pos (Z.to_pos (10 ^ (- e)))) Hm' eq_refl)
      as Hq.
    unfold Z.div in Hq. destruct (Z.div_eucl m' _) as [q r].
    by apply binary_round_aux_bounded.
Qed.

Lemma float_bounded (s : string) (x : spec_float) :
  float s = Ret x → bounded_float x.
Proof.
  unfold float. destruct (sign (strip_with is_blank s)) as [neg body].
  destruct (String.eqb (lower body) "inf" || _); [by intros [= <-]|].
  destruct (String.eqb (lower body) "nan"); [by intros [= <-]|].
  destruct (number body) as [[[m frac] rest]|]; [|done].
  destruct (exponent rest) as [e|]; [|done].
  intros [= <-]. apply float_of_decimal_bounded.
Qed.

(** [int] of a finite float is below [2 ^ 1024] in absolute value. *)
Lemma int_bounded (x : spec_float) (n : Z) :
  bounded_float x → int x = Ret n → Z.abs n < 2 ^ 1024.
Proof.
  destruct x as [s|s| |s m e]; simpl; try done.
  - intros _ [= <-]. done.
  - intros [Hm He] [= <-]. unfold prec, emax in *.
    assert (0 <= Z.shiftl (Z.pos m) e < 2 ^ 1024) as Hshift.
    { destruct (Z.le_gt_cases 0 e) as [Hpos|Hneg].
      - rewrite Z.shiftl_mul_pow2 by done. split; [lia|].
        replace 1024 with (53 + 971) by reflexivity.
        rewrite Z.pow_add_r by lia.
        assert (2 ^ e <= 2 ^ 971) by (apply Z.pow_le_mono_r; lia).
        assert (0 < 2 ^ e) by (apply Z.pow_pos_nonneg; lia).
        nia.
      - rewrite Z.shiftl_div_pow2 by lia.
        assert (0 < 2 ^ (- e)) by (apply Z.pow_pos_nonneg; lia).
        split; [apply Z.div_pos; lia|].
        eapply Z.le_lt_trans; [apply Z.div_le_upper_bound; [lia|]|].
        + instantiate (1 := Z.pos m). nia.
        + eapply Z.lt_trans; [exact Hm|]. by apply Z.pow_lt_mono_r. }
    destruct s; simpl; lia.
Qed.

(** A market value, once converted, is below [2 ^ 1024] in absolute
    value: it is the integer part of a finite float. *)
Lemma convert_currency_to_number_bounded (currency_str : string) (n : Z) :
  convert_currency_to_number currency_str = Ret n → Z.abs n < 2 ^ 1024.
Proof.
  unfold convert_currency_to_number.
  destruct (negb (bool_decide _)); [by intros [= <-]|].
  destruct (negb (truthy currency_str) || _); [by intros [= <-]|].
  destruct (negb (contains "€" currency_str) && _ && _).
  - destruct (float currency_str) as [x|e'] eqn:Hf; simpl.
    + apply float_bounded in Hf. destruct (int x) as [k|e'] eqn:Hint; simpl.
      * intros [= <-]. by eapply int_bounded.
      * destruct (is_ValueError e'); [by intros [= <-]|done].
    + destruct (is_ValueError e'); [by intros [= <-]|done].
  - set (text := strip (replace "€" "" currency_str)).
    destruct (contains "m" text).
    { destruct (float (replace "m" "" text)) as [x|e'] eqn:Hf.
      - apply int_bounded, fmul_bounded.
      - destruct (is_ValueError e'); [by intros [= <-]|done]. }
    destruct (contains "k" text).
    { destruct (float (replace "k" "" text)) as [x|e'] eqn:Hf.
      - apply int_bounded, fmul_bounded.
      - destruct (is_ValueError e'); [by intros [= <-]|done]. }
    destruct (float text) as [x|e'] eqn:Hf.
    + apply float_bounded in Hf. by apply int_bounded.
    + destruct (is_ValueError e'); [by intros [= <-]|done].
Qed.

(** ** Date Sequencer *)

(** C6. From 2024-10-01 to 2024-11-01 the sequence is 2024-10-01,
    2024-10-15, 2024-11-01; from 2024-10-07 to 2024-10-20 the start snaps
    to 2024-10-01, the sequence is 2024-10-01, 2024-10-15, and the next
    candidate 2024-11-01 is past the end. *)
Theorem generate_date_range_fixtures (zero_fill : bool) :
  generate_date_range zero_fill "2024-10-01" "2024-11-01"
    = Some (Ret ["2024-10-01"; "2024-10-15"; "2024-11-01"])
  ∧ (strptime "2024-10-07" ≫= snap)
    = Ret {| year := 2024; month := 10; day := 1 |}
  ∧ generate_date_range zero_fill "2024-10-07" "2024-10-20"
    = Some (Ret ["2024-10-01"; "2024-10-15"])
  ∧ advance {| year := 2024; month := 10; day := 15 |}
    = Ret {| year := 2024; month := 11; day := 1 |}
  ∧ (dt_le {| year := 2024; month := 11; day := 1 |} <$> strptime "2024-10-20")
    = Ret false.
Proof. destruct zero_fill; repeat split; vm_compute; reflexivity. Qed.

(** *** The sequence in general *)

Lemma days_in_month_bounds (y m : Z) : 28 <= days_in_month y m <= 31.
Proof. unfold days_in_month. repeat case_match; lia. Qed.

Lemma valid_date_bounds (y m dd : Z) :
  valid_date y m dd = true ↔
  1 <= y <= 9999 ∧ 1 <= m <= 12 ∧ 1 <= dd <= days_in_month y m.
Proof.
  unfold valid_date, MINYEAR, MAXYEAR.
  rewrite !andb_true_iff, !Z.leb_le. lia.
Qed.

Lemma valid_bounds (dt : datetime) :
  valid dt →
  1 <= year dt <= 9999 ∧ 1 <= month dt <= 12 ∧ 1 <= day dt <= 31.
Proof.
  unfold valid. rewrite valid_date_bounds.
  pose proof (days_in_month_bounds (year dt) (month dt)). lia.
Qed.

Lemma datetime_new_Ret (y m dd : Z) (dt : datetime) :
  datetime_new y m dd = Ret dt →
  dt = {| year := y; month := m; day := dd |} ∧ valid dt.
Proof.
  unfold datetime_new. destruct (valid_date y m dd) eqn:Hv; [|done].
  intros [= <-]. done.
Qed.

Lemma datetime_new_grid (y m dd : Z) :
  1 <= y <= 9999 → 1 <= m <= 12 → dd = 1 ∨ dd = 15 →
  datetime_new y m dd = Ret {| year := y; month := m; day := dd |}.
Proof.
  intros Hy Hm Hd. unfold datetime_new.
  rewrite (proj2 (valid_date_bounds y m dd)); [done|].
  pose proof (days_in_month_bounds y m). lia.
Qed.

Lemma strptime_valid (s : string) (dt : datetime) :
  strptime s = Ret dt → valid dt.
Proof.
  unfold strptime. repeat case_match; try done.
  intros Hnew. by apply datetime_new_Ret in Hnew as [_ ?].
Qed.

Lemma dt_le_spec (a b : datetime) :
  dt_le a b = true ↔
  year a < year b
  ∨ year a = year b
    ∧ (month a < month b ∨ month a = month b ∧ day a <= day b).
Proof.
  unfold dt_le.
  rewrite !orb_true_iff, !andb_true_iff, !orb_true_iff, !andb_true_iff,
    !Z.ltb_lt, !Z.eqb_eq, Z.leb_le.
  done.
Qed.

Lemma dt_lt_negb_le (a b : datetime) : dt_lt b a = negb (dt_le a b).
Proof.
  unfold dt_lt. destruct (dt_le a b) eqn:Hab; simpl.
  - by rewrite andb_false_r.
  - rewrite andb_true_r. apply dt_le_spec.
    apply not_true_iff_false in Hab. rewrite dt_le_spec in Hab. lia.
Qed.

Lemma dt_le_half_month (a b : datetime) :
  valid a → on_grid a → valid b →
  dt_le a b = true ↔ half_month a <= half_month b.
Proof.
  intros Ha%valid_bounds Hg Hb%valid_bounds.
  rewrite dt_le_spec. unfold half_month, on_grid in *.
  destruct (Z.ltb_spec (day a) 15), (Z.ltb_spec (day b) 15); lia.
Qed.

Lemma dt_lt_half_month (a b : datetime) :
  valid a → on_grid a → valid b →
  dt_lt b a = true ↔ half_month b < half_month a.
Proof.
  intros Ha Hg Hb. rewrite dt_lt_negb_le, negb_true_iff.
  rewrite <-not_true_iff_false, dt_le_half_month by done. lia.
Qed.

Lemma half_month_last (dt : datetime) :
  valid dt → half_month dt <= half_month last_point.
Proof.
  intros H%valid_bounds. unfold half_month, last_point, MAXYEAR. simpl.
  case_match; lia.
Qed.

Lemma advance_next (current : datetime) :
  valid current → on_grid current →
  half_month current < half_month last_point →
  ∃ next,
    advance current = Ret next ∧ valid next ∧ on_grid next
    ∧ half_month next = half_month current + 1.
Proof.
  intros Hv Hg Hlast. pose proof (valid_bounds _ Hv) as Hb.
  unfold half_month, last_point, MAXYEAR in Hlast. simpl in Hlast.
  unfold advance, replace_day, on_grid in *. destruct Hg as [Hd|Hd].
  - rewrite Hd. simpl.
    rewrite datetime_new_grid by lia. eexists. split; [done|].
    split; [|split; [by right|]].
    + eapply datetime_new_Ret. apply datetime_new_grid; lia.
    + unfold half_month. simpl. rewrite Hd. simpl. lia.
  - rewrite Hd in *. simpl in *.
    destruct (Z.eqb_spec (month current) 12) as [Hm|Hm].
    + rewrite datetime_new_grid by lia. eexists. split; [done|].
      split; [|split; [by left|]].
      * eapply datetime_new_Ret. apply datetime_new_grid; lia.
      * unfold half_month. simpl. rewrite Hd, Hm. simpl. lia.
    + rewrite datetime_new_grid by lia. eexists. split; [done|].
      split; [|split; [by left|]].
      * eapply datetime_new_Ret. apply datetime_new_grid; lia.
      * unfold half_month. simpl. rewrite Hd. simpl. lia.
Qed.

Lemma advance_last (current : datetime) :
  valid current → on_grid current →
  half_month current = half_month last_point →
  advance current = Raise ValueError.
Proof.
  intros Hv Hg Hlast. pose proof (valid_bounds _ Hv) as Hb.
  unfold half_month, last_point, MAXYEAR in Hlast. simpl in Hlast.
  unfold advance, on_grid in *.
  destruct (Z.ltb_spec (day current) 15); [lia|].
  assert (day current = 15) as Hd by lia.
  assert (month current = 12) as Hm by lia.
  assert (year current = 9999) as Hy by lia.
  rewrite Hd, Hm, Hy. reflexivity.
Qed.

(** [strptime] reads back what [strftime] writes with a zero-filled
    year. *)
Lemma digit_val_digit_char (k : Z) :
  0 <= k <= 9 → digit_val (digit_char k) = Some k.
Proof.
  intros Hk.
  assert (k = 0 ∨ k = 1 ∨ k = 2 ∨ k = 3 ∨ k = 4 ∨ k = 5 ∨ k = 6 ∨ k = 7
          ∨ k = 8 ∨ k = 9) as Hcases by lia.
  repeat (destruct Hcases as [->|Hcases]; [reflexivity|]). by subst.
Qed.

Lemma year_field_pad4 (y : Z) (rest : string) :
  0 <= y <= 9999 → year_field (pad4 y rest) = Some (y, rest).
Proof.
  intros Hy. unfold year_field, pad4, pad2, digit_of.
  do 4 (rewrite digit_val_digit_char
          by (split; [apply Z.mod_pos_bound; lia
                     |apply Z.lt_succ_r, Z.mod_pos_bound; lia]);
        cbn).
  do 2 f_equal. Z.div_mod_to_equations. lia.
Qed.

Lemma month_field_pad2 (m : Z) (rest : string) :
  1 <= m <= 12 → month_field (pad2 m rest) = Some (m, rest).
Proof.
  intros Hm.
  assert (m = 1 ∨ m = 2 ∨ m = 3 ∨ m = 4 ∨ m = 5 ∨ m = 6 ∨ m = 7 ∨ m = 8
          ∨ m = 9 ∨ m = 10 ∨ m = 11 ∨ m = 12) as Hcases by lia.
  repeat (destruct Hcases as [->|Hcases]; [reflexivity|]). by subst.
Qed.

Lemma day_field_pad2 (dd : Z) :
  1 <= dd <= 31 → day_field (pad2 dd "") = Some (dd, "").
Proof.
  intros Hd.
  assert (∃ n, dd = Z.of_nat n ∧ (1 ≤ n ≤ 31)%nat) as (n & -> & Hn)
    by (exists (Z.to_nat dd); lia).
  do 32 (destruct n as [|n]; [first [lia|reflexivity]|]). lia.
Qed.

Lemma strptime_strftime (dt : datetime) :
  valid dt → strptime (strftime true dt) = Ret dt.
Proof.
  intros Hv. pose proof (valid_bounds _ Hv) as Hb.
  unfold strptime, strptime_fields, strftime, year_text.
  rewrite year_field_pad4 by lia. cbn -[month_field day_field].
  rewrite month_field_pad2 by lia. cbn -[day_field].
  rewrite day_field_pad2 by lia. cbn.
  unfold datetime_new. rewrite Hv. by destruct dt.
Qed.

(** Either rendering of the year keeps distinct dates apart. *)
Lemma append_length (s t : string) :
  String.length (s +:+ t) = (String.length s + String.length t)%nat.
Proof.
  induction s as [|c s IH]; [done|].
  change (String c s +:+ t) with (String c (s +:+ t)). simpl. by rewrite IH.
Qed.

Lemma append_inj_length (s1 s2 t1 t2 : string) :
  String.length s1 = String.length s2 →
  s1 +:+ t1 = s2 +:+ t2 → s1 = s2 ∧ t1 = t2.
Proof.
  revert s2. induction s1 as [|c1 s1 IH]; intros [|c2 s2] Hlen; try done.
  change (String c1 s1 +:+ t1 = String c2 s2 +:+ t2)
    with (String c1 (s1 +:+ t1) = String c2 (s2 +:+ t2)).
  intros [= -> Heq]. injection Hlen as Hlen.
  by destruct (IH s2 Hlen Heq) as [-> ->].
Qed.

Lemma month_day_inj (ma da mb db : Z) :
  1 <= ma <= 12 → 1 <= da <= 31 → 1 <= mb <= 12 → 1 <= db <= 31 →
  pad2 ma (String "-" (pad2 da "")) = pad2 mb (String "-" (pad2 db "")) →
  ma = mb ∧ da = db.
Proof.
  intros Hma Hda Hmb Hdb Heq. apply (f_equal month_field) in Heq.
  rewrite !month_field_pad2 in Heq by done.
  assert (ma = mb ∧ pad2 da "" = pad2 db "") as [-> Hd]
    by (split; congruence).
  apply (f_equal day_field) in Hd.
  rewrite !day_field_pad2 in Hd by done. split; congruence.
Qed.

Lemma strftime_inj (zero_fill : bool) (a b : datetime) :
  valid a → valid b → strftime zero_fill a = strftime zero_fill b → a = b.
Proof.
  intros Ha Hb Heq. destruct zero_fill.
  - apply (f_equal strptime) in Heq.
    rewrite !strptime_strftime in Heq by done. congruence.
  - apply valid_bounds in Ha, Hb. unfold strftime, year_text in Heq.
    pose proof (f_equal String.length Heq) as Hlen.
    rewrite !append_length in Hlen. simpl in Hlen.
    apply append_inj_length in Heq as [Hy Heq]; [|lia].
    apply (inj pretty) in Hy.
    assert (pad2 (month a) (String "-" (pad2 (day a) ""))
            = pad2 (month b) (String "-" (pad2 (day b) ""))) as Hmd
      by congruence.
    apply month_day_inj in Hmd as [Hm Hd]; [|lia..].
    destruct a, b. simpl in *. congruence.
Qed.

Lemma sorted_NoDup (ds : list datetime) :
  StronglySorted (λ a b, dt_lt a b = true) ds → NoDup ds.
Proof.
  induction 1 as [|a ds _ IH Hall]; constructor; [|done].
  intros Hin. rewrite Forall_forall in Hall. specialize (Hall a Hin).
  unfold dt_lt in Hall. by destruct (dt_le a a).
Qed.

(** The loop started on a snapshot date [current] with enough fuel: it
    returns the dates accumulated so far followed by those of the snapshot
    dates from [current] to [end_], unless [end_] is on or after the last
    snapshot date and [current] is not past [end_], in which case stepping
    past year 9999 raises. *)
Lemma while_loop_run (zero_fill : bool) (fuel : nat)
    (current end_ : datetime) (dates : list string) :
  valid current → on_grid current → valid end_ →
  half_month end_ - half_month current + 1 <= Z.of_nat fuel →
  ∃ ds,
    Forall (λ dt, valid dt ∧ on_grid dt
                  ∧ half_month current <= half_month dt) ds
    ∧ StronglySorted (λ a b, dt_lt a b = true) ds
    ∧ while_loop zero_fill fuel current end_ dates
      = Some (if decide (half_month end_ < half_month last_point
                         ∨ half_month end_ < half_month current)
              then Ret (dates ++ (strftime zero_fill <$> ds))
              else Raise ValueError).
Proof.
  revert current dates.
  induction fuel as [|fuel IH]; intros current dates Hv Hg Hend Hfuel.
  - exists []. split; [constructor|]. split; [constructor|]. simpl.
    destruct (dt_le current end_) eqn:Hle.
    + apply dt_le_half_month in Hle; [lia|done..].
    + apply not_true_iff_false in Hle. rewrite dt_le_half_month in Hle by done.
      rewrite decide_True by lia. by rewrite app_nil_r.
  - simpl. destruct (dt_le current end_) eqn:Hle.
    + apply dt_le_half_month in Hle; [|done..].
      pose proof (half_month_last _ Hv) as Hmax.
      destruct (decide (half_month current = half_month last_point))
        as [Hlast|Hlast].
      * exists []. split; [constructor|]. split; [constructor|].
        rewrite advance_last by done. rewrite decide_False by lia. done.
      * destruct (advance_next current Hv Hg)
          as (next & Hadv & Hvn & Hgn & Hhm); [lia|].
        rewrite Hadv.
        destruct (IH next (dates ++ [strftime zero_fill current])
                    Hvn Hgn Hend)
          as (ds & Hall & Hsorted & Hrun); [lia|].
        exists (current :: ds). split; [|split].
        -- constructor; [split; [done|split; [done|lia]]|].
           eapply Forall_impl; [exact Hall|]. simpl. intros dt (? & ? & ?).
           split; [done|]. split; [done|]. lia.
        -- constructor; [done|].
           eapply Forall_impl; [exact Hall|]. simpl. intros dt (? & ? & ?).
           apply dt_lt_half_month; [done..|]. lia.
        -- rewrite Hrun. f_equal.
           destruct (decide (half_month end_ < half_month last_point)).
           ++ rewrite !decide_True by lia.
              by rewrite fmap_cons, <-app_assoc.
           ++ by rewrite !decide_False by lia.
    + apply not_true_iff_false in Hle. rewrite dt_le_half_month in Hle by done.
      exists []. split; [constructor|]. split; [constructor|].
      rewrite decide_True by lia. by rewrite app_nil_r.
Qed.

Lemma snap_grid (start : datetime) :
  valid start →
  ∃ s, snap start = Ret s ∧ valid s ∧ on_grid s.
Proof.
  intros Hv. pose proof (valid_bounds _ Hv) as Hb.
  unfold snap, replace_day. case_match.
  - rewrite datetime_new_grid by lia. eexists. split; [done|].
    split; [|by left].
    eapply datetime_new_Ret. apply datetime_new_grid; lia.
  - rewrite datetime_new_grid by lia. eexists. split; [done|].
    split; [|by right].
    eapply datetime_new_Ret. apply datetime_new_grid; lia.
Qed.

(** X23. Away from the top of the [datetime] range, that is for
    well-formed [start_date] and [end_date] with the end before
    9999-12-15, or before the start once snapped to the 1st or the 15th,
    [generate_date_range] terminates and returns the texts of a finite
    list of dates in which every date is a 1st or a 15th, the dates
    strictly increase, and no text occurs twice. *)
Theorem generate_date_range_sequence (zero_fill : bool)
    (start_date end_date : string) (start end_ : datetime) :
  strptime start_date = Ret start →
  strptime end_date = Ret end_ →
  dt_lt end_ last_point = true
  ∨ (∃ s, snap start = Ret s ∧ dt_lt end_ s = true) →
  ∃ ds,
    generate_date_range zero_fill start_date end_date
    = Some (Ret (strftime zero_fill <$> ds))
    ∧ Forall valid ds
    ∧ Forall on_grid ds
    ∧ StronglySorted (λ a b, dt_lt a b = true) ds
    ∧ NoDup (strftime zero_fill <$> ds).
Proof.
  intros Hstart Hend Hrange. unfold generate_date_range.
  rewrite Hstart, Hend.
  apply strptime_valid in Hstart, Hend.
  destruct (snap_grid start Hstart) as (s & Hsnap & Hvs & Hgs).
  rewrite Hsnap.
  destruct (while_loop_run zero_fill (iterations s end_) s end_ []
              Hvs Hgs Hend) as (ds & Hall & Hsorted & Hrun).
  { unfold iterations. lia. }
  exists ds. rewrite Hrun, decide_True.
  - split; [done|].
    split; [eapply Forall_impl; [exact Hall|]; by intros dt (? & ? & ?)|].
    split; [eapply Forall_impl; [exact Hall|]; by intros dt (? & ? & ?)|].
    split; [done|].
    apply NoDup_fmap_2_strong; [|by apply sorted_NoDup].
    intros a b Ha Hb. rewrite Forall_forall in Hall.
    destruct (Hall a Ha) as [Hva _], (Hall b Hb) as [Hvb _].
    by apply (strftime_inj zero_fill).
  - destruct Hrange as [Hlt|(s' & Hsnap' & Hlt)].
    + left. apply dt_lt_half_month in Hlt; [done|reflexivity|by right|done].
    + right. rewrite Hsnap in Hsnap'. injection Hsnap' as <-.
      by apply dt_lt_half_month in Hlt.
Qed.

Lemma generate_date_range_sequence_witness :
  ∃ ds,
    generate_date_range false "2024-10-07" "2024-10-20"
    = Some (Ret (strftime false <$> ds))
    ∧ Forall valid ds
    ∧ Forall on_grid ds
    ∧ StronglySorted (λ a b, dt_lt a b = true) ds
    ∧ NoDup (strftime false <$> ds).
Proof.
  apply (generate_date_range_sequence false "2024-10-07" "2024-10-20"
           {| year := 2024; month := 10; day := 7 |}
           {| year := 2024; month := 10; day := 20 |}).
  - vm_compute. reflexivity.
  - vm_compute. reflexivity.
  - left. vm_compute. reflexivity.
Defined.

(** At the top of the range the call raises: with the end on or after
    9999-12-15 and the snapped start not past it, the loop reaches
    9999-12-15, builds the next date before testing it against the end,
    and the constructor rejects year 10000. *)
Lemma generate_date_range_past_last (zero_fill : bool)
    (start_date end_date : string) (start end_ s : datetime) :
  strptime start_date = Ret start →
  strptime end_date = Ret end_ →
  snap start = Ret s →
  dt_le last_point end_ = true → dt_le s end_ = true →
  generate_date_range zero_fill start_date end_date
  = Some (Raise ValueError).
Proof.
  intros Hstart Hend Hsnap Hlast Hle. unfold generate_date_range.
  rewrite Hstart, Hend, Hsnap.
  apply strptime_valid in Hstart, Hend.
  destruct (snap_grid start Hstart) as (s' & Hsnap' & Hvs & Hgs).
  rewrite Hsnap in Hsnap'. injection Hsnap' as <-.
  destruct (while_loop_run zero_fill (iterations s end_) s end_ []
              Hvs Hgs Hend) as (ds & _ & _ & Hrun).
  { unfold iterations. lia. }
  rewrite Hrun, decide_False; [done|].
  apply dt_le_half_month in Hlast; [|reflexivity|by right|done].
  apply dt_le_half_month in Hle; [|done..]. lia.
Qed.

(** C7. For well-formed dates the call is to return the finite list of
    the 1sts and 15ths from start to end; from 9999-12-01 to 9999-12-31,
    both well formed, it raises [ValueError] instead of returning
    9999-12-01 and 9999-12-15, whichever way the year is rendered: after
    9999-12-15 the loop builds a date in year 10000 before it tests it
    against the end. *)
Lemma generate_date_range_year_9999 :
  strptime "9999-12-01" = Ret {| year := 9999; month := 12; day := 1 |}
  ∧ strptime "9999-12-31" = Ret {| year := 9999; month := 12; day := 31 |}
  ∧ generate_date_range true "9999-12-01" "9999-12-31"
    = Some (Raise ValueError)
  ∧ generate_date_range false "9999-12-01" "9999-12-31"
    = Some (Raise ValueError).
Proof. repeat split; vm_compute; reflexivity. Qed.

(** ** Table Extractor: headers and URL *)

(** C4. The header cells with texts [""], ["Club"], ["Value Oct 1, 2024"],
    ["Value Oct 1, 2023"] (none of them hidden) give the final header list
    Rank, Club, Value, Value_2. *)
Theorem header_fixture :
  final_headers
    (collect_headers
       [ {| cell_class := []; cell_text := "" |};
         {| cell_class := []; cell_text := "Club" |};
         {| cell_class := []; cell_text := "Value Oct 1, 2024" |};
         {| cell_class := []; cell_text := "Value Oct 1, 2023" |} ])
  = ["Rank"; "Club"; "Value"; "Value_2"].
Proof. vm_compute. reflexivity. Qed.

(** [strptime] raises nothing but [ValueError]. *)
Lemma strptime_raises_ValueError (s : string) (e : exn) :
  strptime s = Raise e → e = ValueError.
Proof.
  unfold strptime, datetime_new. repeat case_match; congruence.
Qed.



(** *** The dedup pass *)

Lemma dedup_state_snoc (hs : list string) (h : string) :
  dedup_state (hs ++ [h]) = dedup_step (dedup_state hs) h.
Proof. unfold dedup_state. by rewrite foldl_app. Qed.

Lemma value_count_occurrences (hs : list string) :
  snd (dedup_state hs) = Z.of_nat (occurrences hs).
Proof.
  induction hs as [|h hs IH] using rev_ind; [done|].
  rewrite dedup_state_snoc. unfold occurrences in *.
  rewrite filter_app, length_app.
  destruct (dedup_state hs) as [final n]. simpl in *. subst n.
  destruct (String.eqb_spec h "Value") as [->|Hne].
  - rewrite filter_cons_True by done. simpl.
    case_match; simpl; lia.
  - rewrite filter_cons_False by done. simpl.
    case_match; simpl; lia.
Qed.

Lemma value_label_numbered (k : Z) : 1 < k → value_label k ≠ "Value".
Proof.
  intros Hk. unfold value_label.
  rewrite (proj2 (Z.ltb_lt 1 k)) by done. simpl. discriminate.
Qed.

Lemma final_headers_snoc (hs : list string) (h : string) :
  final_headers (hs ++ [h]) =
    if decide (h = "Value")
    then final_headers hs ++ [value_label (Z.of_nat (occurrences hs) + 1)]
    else if decide (h ∈ final_headers hs) then final_headers hs
    else final_headers hs ++ [h].
Proof.
  unfold final_headers. rewrite dedup_state_snoc.
  pose proof (value_count_occurrences hs) as Hn.
  destruct (dedup_state hs) as [final n]. simpl in *. subst n.
  unfold value_label.
  destruct (String.eqb_spec h "Value") as [->|Hne].
  - rewrite decide_True by done. by case_match.
  - rewrite decide_False by done.
    destruct (decide (h ∈ final)) as [Hin|Hin].
    + by rewrite bool_decide_eq_true_2.
    + by rewrite bool_decide_eq_false_2.
Qed.

Lemma final_headers_Value (hs : list string) :
  filter (λ h, h = "Value") (final_headers hs)
  = if decide (occurrences hs = O) then [] else ["Value"].
Proof.
  induction hs as [|h hs IH] using rev_ind; [done|].
  rewrite final_headers_snoc. unfold occurrences in *.
  rewrite (filter_app _ hs), length_app.
  destruct (decide (h = "Value")) as [->|Hne].
  - rewrite (filter_cons_True _ "Value" []) by done. simpl.
    rewrite filter_app, IH.
    rewrite (decide_False (P := (_ + 1)%nat = O)) by lia.
    destruct (decide (length (filter (λ h, h = "Value") hs) = O)) as [->|Hpos].
    + done.
    + rewrite filter_cons_False; [done|].
      apply value_label_numbered. lia.
  - rewrite (filter_cons_False _ h []) by done. simpl.
    rewrite Nat.add_0_r.
    destruct (decide (h ∈ final_headers hs)); [done|].
    rewrite filter_app, IH, filter_cons_False by done.
    by rewrite app_nil_r.
Qed.

Lemma value_labels_sublist (hs : list string) :
  ((λ k, value_label (Z.of_nat k)) <$> seq 1 (occurrences hs))
    `sublist_of` final_headers hs.
Proof.
  induction hs as [|h hs IH] using rev_ind; [done|].
  rewrite final_headers_snoc. unfold occurrences in *.
  rewrite (filter_app _ hs), length_app.
  destruct (decide (h = "Value")) as [->|Hne].
  - rewrite (filter_cons_True _ "Value" []) by done. simpl length.
    rewrite Nat.add_1_r, seq_S, fmap_app. simpl.
    apply sublist_app; [done|].
    replace (Z.of_nat (S (length (filter (λ h, h = "Value") hs))))
      with (Z.of_nat (length (filter (λ h, h = "Value") hs)) + 1) by lia.
    done.
  - rewrite (filter_cons_False _ h []) by done. simpl length.
    rewrite Nat.add_0_r.
    destruct (decide (h ∈ final_headers hs)); [done|].
    by apply sublist_inserts_r.
Qed.

Lemma final_headers_prefix (hs more : list string) :
  final_headers hs `prefix_of` final_headers (hs ++ more).
Proof.
  induction more as [|h more IH] using rev_ind.
  - by rewrite app_nil_r.
  - rewrite app_assoc, final_headers_snoc.
    repeat case_decide; [|done|]; by apply prefix_app_r.
Qed.

(** Canonical labels are never of the form ["Value_..."]: such a text
    contains "value" and is collapsed to ["Value"]. *)
Lemma canonical_header_unnumbered (header_text : string) :
  unnumbered (canonical_header header_text).
Proof.
  intros suffix. unfold canonical_header.
  destruct (negb (truthy header_text)); [discriminate|].
  destruct (contains "Club" header_text); [discriminate|].
  destruct (bool_decide _ || contains "value" (lower header_text)) eqn:Hval;
    [discriminate|].
  intros ->. apply orb_false_iff in Hval as [_ Hval]. discriminate.
Qed.

Lemma collect_headers_unnumbered (ths : list cell) :
  Forall unnumbered (collect_headers ths).
Proof.
  induction ths as [|th ths IH]; simpl; [constructor|].
  destruct (has_class "hide" (cell_class th)); [done|].
  constructor; [apply canonical_header_unnumbered|done].
Qed.

Lemma value_label_inj (j k : Z) :
  1 <= j → 1 <= k → value_label j = value_label k → j = k.
Proof.
  intros Hj Hk. unfold value_label.
  destruct (Z.ltb_spec 1 j), (Z.ltb_spec 1 k); simpl; try discriminate.
  - by intros Heq%(inj (String.app _))%(inj pretty).
  - lia.
Qed.

Lemma final_headers_elem (hs : list string) (x : string) :
  x ∈ final_headers hs →
  (x ∈ hs ∧ x ≠ "Value")
  ∨ ∃ k, (1 ≤ k ≤ occurrences hs)%nat ∧ x = value_label (Z.of_nat k).
Proof.
  induction hs as [|h hs IH] using rev_ind.
  - intros Hin. by apply elem_of_nil in Hin.
  - rewrite final_headers_snoc. unfold occurrences in *.
    rewrite (filter_app _ hs), length_app.
    assert (x ∈ final_headers hs →
            (x ∈ hs ++ [h] ∧ x ≠ "Value")
            ∨ ∃ k, (1 ≤ k ≤ length (filter (λ h, h = "Value") hs)
                          + length (filter (λ h, h = "Value") [h]))%nat
                   ∧ x = value_label (Z.of_nat k)) as Hold.
    { intros [[Hin Hne]|(k & Hk & ->)]%IH.
      - left. split; [|done]. apply elem_of_app. by left.
      - right. exists k. split; [lia|done]. }
    destruct (decide (h = "Value")) as [->|Hne].
    + intros [Hin| ->%list_elem_of_singleton]%elem_of_app; [by apply Hold|].
      right. exists (S (length (filter (λ h, h = "Value") hs))).
      rewrite (filter_cons_True _ "Value" []) by done. simpl.
      split; [lia|]. f_equal. lia.
    + destruct (decide (h ∈ final_headers hs)); [done|].
      intros [Hin| ->%list_elem_of_singleton]%elem_of_app; [by apply Hold|].
      left. split; [|done]. apply elem_of_app. right. by left.
Qed.

(** On canonical labels the dedup pass leaves no label twice. *)
Lemma final_headers_NoDup (hs : list string) :
  Forall unnumbered hs → NoDup (final_headers hs).
Proof.
  induction hs as [|h hs IH] using rev_ind; [constructor|].
  intros [Hhs Hh]%Forall_app. specialize (IH Hhs).
  rewrite final_headers_snoc.
  destruct (decide (h = "Value")) as [->|Hne].
  - apply NoDup_app. split; [done|]. split; [|apply NoDup_singleton].
    intros x Hx ->%list_elem_of_singleton.
    apply final_headers_elem in Hx as [[Hin Hv]|(k & Hk & Heq)].
    + unfold value_label in *.
      destruct (Z.ltb_spec 1 (Z.of_nat (occurrences hs) + 1)); [|done].
      rewrite Forall_forall in Hhs. by eapply Hhs.
    + apply value_label_inj in Heq; lia.
  - destruct (decide (h ∈ final_headers hs)) as [Hin|Hin]; [done|].
    apply NoDup_app. split; [done|]. split; [|apply NoDup_singleton].
    by intros x Hx ->%list_elem_of_singleton.
Qed.

Lemma table_headers_NoDup (ths : list cell) :
  NoDup (final_headers (collect_headers ths)).
Proof. apply final_headers_NoDup, collect_headers_unnumbered. Qed.

(** C3. The dedup pass, on any list of labels: the header list grows by
    one label per column read and never loses one already retained; the
    [k]-th ["Value"] is always retained, as ["Value"] for [k = 1] and as
    ["Value_k"] after that, so these labels appear in the final list in
    occurrence order; at most one final label is literally ["Value"]; and
    any other label is dropped when it equals a label already retained and
    appended unchanged otherwise. *)
Theorem dedup_pass (hs : list string) :
  (∀ h,
     final_headers (hs ++ [h]) =
       if decide (h = "Value")
       then final_headers hs ++ [value_label (Z.of_nat (occurrences hs) + 1)]
       else if decide (h ∈ final_headers hs) then final_headers hs
       else final_headers hs ++ [h])
  ∧ ((λ k, value_label (Z.of_nat k)) <$> seq 1 (occurrences hs))
      `sublist_of` final_headers hs
  ∧ (length (filter (λ h, h = "Value") (final_headers hs)) ≤ 1)%nat
  ∧ (∀ more, final_headers hs `prefix_of` final_headers (hs ++ more))
  ∧ value_label 1 = "Value" ∧ value_label 2 = "Value_2"
  ∧ value_label 3 = "Value_3".
Proof.
  split; [apply final_headers_snoc|].
  split; [apply value_labels_sublist|].
  split; [rewrite final_headers_Value; case_decide; simpl; lia|].
  split; [apply final_headers_prefix|].
  repeat split; vm_compute; reflexivity.
Qed.

(** *** Row mapping *)

Lemma fold_insert_lookup (hs : list string) (m : gmap string value)
    (k : string) :
  foldl (λ row_data header, <[header := VStr ""]> row_data) m hs !! k
  = if decide (k ∈ hs) then Some (VStr "") else m !! k.
Proof.
  revert m. induction hs as [|h hs IH]; intros m; simpl.
  - done.
  - rewrite IH. destruct (decide (k ∈ hs)) as [Hin|Hin].
    + rewrite decide_True; [done|by right].
    + destruct (decide (k = h)) as [->|Hne].
      * rewrite lookup_insert_eq, decide_True; [done|by left].
      * rewrite lookup_insert_ne by done.
        rewrite decide_False; [done|].
        rewrite elem_of_cons. intros [?|?]; done.
Qed.

Lemma empty_row_lookup (hs : list string) (k : string) :
  empty_row hs !! k = if decide (k ∈ hs) then Some (VStr "") else None.
Proof. unfold empty_row. by rewrite fold_insert_lookup, lookup_empty. Qed.

Lemma fill_row_inv (hs : list string) (i : nat) (cells : list string)
    (m m' : gmap string value) :
  fill_row hs i cells m = Ret m' →
  (∀ k, is_Some (m !! k) → is_Some (m' !! k))
  ∧ (club_is_text m → club_is_text m').
Proof.
  revert i m. induction hs as [|h hs IH]; intros i m; simpl.
  - intros [= <-]. done.
  - destruct (cells !! i) as [text|]; [|apply IH].
    destruct (convert_cell h text) as [v|e] eqn:Hv; [|done].
    cbn. intros Hfill. apply IH in Hfill as [Hdom Hclub]. split.
    + intros k Hk. apply Hdom.
      destruct (decide (h = k)) as [->|Hne].
      * rewrite lookup_insert_eq. by eexists.
      * by rewrite lookup_insert_ne.
    + intros Hm. apply Hclub. intros v'.
      destruct (decide (h = "Club")) as [->|Hne].
      * rewrite lookup_insert_eq. intros [= <-].
        change (convert_cell "Club" text) with (Ret (VStr text)) in Hv.
        injection Hv as <-. by eexists.
      * rewrite lookup_insert_ne by done. apply Hm.
Qed.

Lemma process_row_Some (hs : list string) (row : tr)
    (row_data : gmap string value) :
  process_row hs row = Ret (Some row_data) →
  (2 ≤ length (cells_data (tr_cells row)))%nat
  ∧ (∀ h, h ∈ hs → is_Some (row_data !! h))
  ∧ ∃ s, row_data !! "Club" = Some (VStr s) ∧ s ≠ "".
Proof.
  unfold process_row.
  destruct (has_class "thead" _ || has_class "tfoot" _); [done|].
  destruct (length (cells_data (tr_cells row)) <? 2)%nat eqn:Hlen; [done|].
  apply Nat.ltb_ge in Hlen.
  destruct (fill_row hs 0 (cells_data (tr_cells row)) (empty_row hs))
    as [m|e] eqn:Hfill; [|done].
  cbn. destruct (has_club m) eqn:Hclub; [|done].
  intros [= <-]. apply fill_row_inv in Hfill as [Hdom Htext].
  split; [done|]. split.
  - intros h Hh. apply Hdom. rewrite empty_row_lookup, decide_True by done.
    by eexists.
  - unfold has_club in Hclub. apply andb_true_iff in Hclub as [_ Hclub].
    destruct (m !! "Club") as [v|] eqn:Hv; [|done].
    assert (club_is_text (empty_row hs)) as Hempty.
    { intros v'. rewrite empty_row_lookup. case_decide; [|done].
      intros [= <-]. by eexists. }
    destruct (Htext Hempty v Hv) as [s ->].
    exists s. split; [done|]. by destruct s.
Qed.

Lemma process_row_short (hs : list string) (row : tr) :
  (length (cells_data (tr_cells row)) < 2)%nat →
  process_row hs row = Ret None.
Proof.
  intros Hlen. unfold process_row.
  destruct (has_class "thead" _ || has_class "tfoot" _); [done|].
  by rewrite (proj2 (Nat.ltb_lt _ _) Hlen).
Qed.

Lemma process_rows_origin (hs : list string) (rows : list tr)
    (acc teams_data : list (gmap string value)) :
  process_rows hs rows acc = Ret teams_data →
  ∀ row_data, row_data ∈ teams_data →
    row_data ∈ acc
    ∨ ∃ row, row ∈ rows ∧ process_row hs row = Ret (Some row_data).
Proof.
  revert acc. induction rows as [|row rows IH]; intros acc; simpl.
  - intros [= <-] row_data Hin. by left.
  - destruct (process_row hs row) as [[d|]|e] eqn:Hrow; [| |done]; cbn;
      intros Hrest row_data Hin;
      destruct (IH _ Hrest row_data Hin) as [Hacc|(row' & Hin' & Hrow')].
    + apply elem_of_app in Hacc as [Hacc|Hd]; [by left|].
      apply list_elem_of_singleton in Hd as ->.
      right. exists row. split; [by left|done].
    + right. exists row'. split; [by right|done].
    + by left.
    + right. exists row'. split; [by right|done].
Qed.

(** C5. In a result of the Table Extractor, every row comes from a body
    row with at least two remaining cells (a body row with fewer yields
    nothing), holds a value for every label of the final header list, and
    holds a non-empty text under ["Club"]. *)
Theorem extracted_rows (found : option table) (res : extraction) :
  extract found = Ret (Some res) →
  ∃ t ths,
    found = Some t ∧ thead_tr t = Some ths
    ∧ headers res = final_headers (collect_headers ths)
    ∧ (∀ row, row ∈ tbody_trs t →
         (length (cells_data (tr_cells row)) < 2)%nat →
         process_row (headers res) row = Ret None)
    ∧ ∀ row_data, row_data ∈ data res →
        (∃ row, row ∈ tbody_trs t
                ∧ (2 ≤ length (cells_data (tr_cells row)))%nat
                ∧ process_row (headers res) row = Ret (Some row_data))
        ∧ (∀ h, h ∈ headers res → is_Some (row_data !! h))
        ∧ ∃ s, row_data !! "Club" = Some (VStr s) ∧ s ≠ "".
Proof.
  unfold extract. destruct found as [t|]; [|done].
  destruct (thead_tr t) as [ths|] eqn:Hths; [|done].
  destruct (process_rows _ (tbody_trs t) []) as [teams|e] eqn:Hrows; [|done].
  cbn. intros [= <-]. exists t, ths. simpl.
  split; [done|]. split; [done|]. split; [done|].
  split; [intros row _; apply process_row_short|].
  intros row_data Hin.
  destruct (process_rows_origin _ _ _ _ Hrows row_data Hin)
    as [Hnil|(row & Hrow & Hproc)]; [by apply elem_of_nil in Hnil|].
  destruct (process_row_Some _ _ _ Hproc) as (Hlen & Hdom & Hclub).
  split; [by exists row|done].
Qed.

Lemma extracted_rows_witness :
  extract (Some sample_table) = Ret (Some sample_extraction)
  ∧ ∃ t ths,
      Some sample_table = Some t ∧ thead_tr t = Some ths
      ∧ headers sample_extraction = final_headers (collect_headers ths)
      ∧ (∀ row, row ∈ tbody_trs t →
           (length (cells_data (tr_cells row)) < 2)%nat →
           process_row (headers sample_extraction) row = Ret None)
      ∧ ∀ row_data, row_data ∈ data sample_extraction →
          (∃ row, row ∈ tbody_trs t
                  ∧ (2 ≤ length (cells_data (tr_cells row)))%nat
                  ∧ process_row (headers sample_extraction) row
                    = Ret (Some row_data))
          ∧ (∀ h, h ∈ headers sample_extraction → is_Some (row_data !! h))
          ∧ ∃ s, row_data !! "Club" = Some (VStr s) ∧ s ≠ "".
Proof.
  split; [vm_compute; reflexivity|].
  apply (extracted_rows (Some sample_table) sample_extraction).
  vm_compute. reflexivity.
Defined.

(** ** CSV sink *)

(** C9. When [data] is [None], or a dictionary without a ["headers"] key
    or without a ["data"] key, [save_to_csv] returns [False] and leaves
    the file store as it was. *)
Theorem save_to_csv_no_data (data : option data_dict) (filename : string)
    (date : option string) (fs : store) :
  data = None
  ∨ (∃ dd, data = Some dd ∧ (get_headers dd = None ∨ get_data dd = None)) →
  save_to_csv data filename date fs = (false, fs).
Proof.
  intros [->|(dd & -> & H)]; [done|].
  destruct dd as [[hs|] [rows|]]; simpl in *; try done.
  destruct H; discriminate.
Qed.

Lemma save_to_csv_no_data_witness :
  save_to_csv (Some {| get_headers := Some ["Club"]; get_data := None |})
    "out.csv" (Some "2024-10-01") {| files := ∅; unwritable := ∅ |}
  = (false, {| files := ∅; unwritable := ∅ |}).
Proof.
  apply save_to_csv_no_data. right. eexists. split; [reflexivity|].
  right. reflexivity.
Defined.

(** *** Appending *)


Lemma well_keyed_with_date (hs : list string) (date : option string)
    (row : gmap string value) :
  well_keyed ("Date" :: hs) (row_with_date date row)
  ↔ well_keyed ("Date" :: hs) row.
Proof.
  unfold well_keyed, row_with_date. rewrite dom_union, dom_singleton.
  split.
  - intros Hsub key Hkey. apply Hsub, elem_of_union. by left.
  - intros Hsub key [Hkey|Hkey]%elem_of_union; [by apply Hsub|].
    apply elem_of_singleton in Hkey as ->.
    apply elem_of_list_to_set. by left.
Qed.

(** The date is a text, so the fields of a line all have a text when the
    integers of the row do; and the other way round for a row whose keys
    are field names, since each of its values is then a field. *)
Lemma date_cell_default (date : option string) :
  date_cell date = VStr (default "" date).
Proof. by destruct date as [[|c s]|]. Qed.

Lemma has_text_spec (v : value) : has_text v = true ↔ short_int v.
Proof.
  destruct v as [s|k|x]; simpl; [done| |done].
  change int_max_str_digits with 4300. apply Z.ltb_lt.
Qed.

Lemma line_of_printable (fieldnames : list string) (date : option string)
    (row : gmap string value) :
  printable row → forallb has_text (line_of fieldnames date row) = true.
Proof.
  intros Hrow. apply forallb_forall. intros v Hv%list_elem_of_In.
  apply list_elem_of_fmap in Hv as (key & -> & _).
  apply has_text_spec. unfold row_with_date.
  destruct (row !! key) as [v|] eqn:Hkey.
  - rewrite (lookup_union_Some_l _ _ _ v) by done. simpl.
    by eapply Hrow.
  - rewrite lookup_union_r by done.
    destruct (decide (key = "Date")) as [->|Hne].
    + by rewrite lookup_singleton_eq, date_cell_default.
    + by rewrite lookup_singleton_ne.
Qed.

Lemma line_of_has_text (fieldnames : list string) (date : option string)
    (row : gmap string value) :
  well_keyed fieldnames row →
  forallb has_text (line_of fieldnames date row) = true → printable row.
Proof.
  intros Hkeys Hline key v Hkey.
  assert (key ∈ fieldnames) as Hin.
  { assert (key ∈ dom row) as Hd by (apply elem_of_dom; by eexists).
    apply Hkeys in Hd. by apply elem_of_list_to_set in Hd. }
  rewrite forallb_forall in Hline.
  apply has_text_spec, Hline, list_elem_of_In, list_elem_of_fmap.
  exists key. split; [|done]. unfold row_with_date.
  by rewrite (lookup_union_Some_l _ _ _ v).
Qed.

(** What [DictWriter.writerow] does with a row. *)
Lemma writerow_line (fieldnames : list string) (date : option string)
    (row : gmap string value) (content : list record) :
  (line ← dict_to_list fieldnames (row_with_date date row);
   writerow line content)
  = if bool_decide (well_keyed fieldnames (row_with_date date row))
       && forallb has_text (line_of fieldnames date row)
    then Ret (content ++ [line_of fieldnames date row])
    else Raise ValueError.
Proof.
  change (dict_to_list fieldnames (row_with_date date row))
    with (if bool_decide (well_keyed fieldnames (row_with_date date row))
          then Ret (line_of fieldnames date row) else Raise ValueError).
  by destruct (bool_decide _).
Qed.

Lemma writerow_accepts (hs : list string) (date : option string)
    (row : gmap string value) :
  bool_decide (well_keyed ("Date" :: hs) (row_with_date date row))
  && forallb has_text (line_of ("Date" :: hs) date row) = true
  ↔ well_keyed ("Date" :: hs) row ∧ printable row.
Proof.
  rewrite andb_true_iff, bool_decide_eq_true, well_keyed_with_date.
  split.
  - intros [Hkeys Hline]. split; [done|]. by eapply line_of_has_text.
  - intros [Hkeys Hrow]. split; [done|]. by apply line_of_printable.
Qed.

Lemma write_rows_spec (fieldnames : list string) (date : option string)
    (rows : list (gmap string value)) (content : list record) :
  ∃ written,
    fst (write_rows fieldnames date rows content) = content ++ written
    ∧ written `prefix_of` block fieldnames date rows
    ∧ (snd (write_rows fieldnames date rows content) = Ret () →
       written = block fieldnames date rows).
Proof.
  revert content. induction rows as [|row rows IH]; intros content.
  - exists []. simpl. by rewrite app_nil_r.
  - cbn [write_rows]. rewrite writerow_line.
    destruct (bool_decide _ && _).
    + destruct (IH (content ++ [line_of fieldnames date row]))
        as (written & Hfst & Hpre & Hall).
      exists (line_of fieldnames date row :: written).
      split; [by rewrite Hfst, <-app_assoc|].
      split; [by apply prefix_cons|].
      intros Hok. by rewrite (Hall Hok).
    + exists []. simpl. split; [by rewrite app_nil_r|].
      split; [apply prefix_nil|done].
Qed.

Lemma write_rows_well_keyed (hs : list string) (date : option string)
    (rows : list (gmap string value)) (content : list record) :
  Forall (well_keyed ("Date" :: hs)) rows → Forall printable rows →
  write_rows ("Date" :: hs) date rows content
  = (content ++ block ("Date" :: hs) date rows, Ret ()).
Proof.
  intros Hrows. revert content.
  induction Hrows as [|row rows Hrow _ IH]; intros content Hprint.
  - simpl. by rewrite app_nil_r.
  - apply Forall_cons in Hprint as [Hp Hprint].
    cbn [write_rows]. rewrite writerow_line.
    rewrite (proj2 (writerow_accepts hs date row)) by done.
    rewrite IH by done. simpl. by rewrite <-app_assoc.
Qed.


Lemma save_to_csv_twice (hs : list string)
    (rows : list (gmap string value)) (filename : string) (fs : store)
    (date1 date2 : option string) :
  filename ∉ unwritable fs →
  files fs !! filename = None →
  Forall (well_keyed ("Date" :: hs)) rows → Forall printable rows →
  let arg := Some {| get_headers := Some hs; get_data := Some rows |} in
  let '(ok1, fs1) := save_to_csv arg filename date1 fs in
  let '(ok2, fs2) := save_to_csv arg filename date2 fs1 in
  ok1 = true ∧ ok2 = true
  ∧ files fs2 !! filename
    = Some ((VStr <$> "Date" :: hs)
            :: block ("Date" :: hs) date1 rows
            ++ block ("Date" :: hs) date2 rows).
Proof.
  intros Hw Hnew Hrows Hprint. unfold save_to_csv, open_append, exists_.
  rewrite bool_decide_eq_false_2 by done.
  rewrite Hnew. rewrite bool_decide_eq_false_2 by (by intros [? ?]).
  simpl. rewrite write_rows_well_keyed by done. simpl.
  rewrite bool_decide_eq_false_2 by done.
  rewrite lookup_insert_eq.
  rewrite bool_decide_eq_true_2 by (by eexists).
  simpl. rewrite write_rows_well_keyed by done.
  split; [done|]. split; [done|]. simpl.
  by rewrite lookup_insert_eq.
Qed.

(** The rows of an extraction have no key outside its header list, and
    their integers are market values, far below the writer's limit: the
    writer accepts each of them. *)
Lemma fill_row_keys (hs : list string) (i : nat) (cells : list string)
    (m m' : gmap string value) :
  fill_row hs i cells m = Ret m' →
  ∀ k, is_Some (m' !! k) → is_Some (m !! k) ∨ k ∈ hs.
Proof.
  revert i m. induction hs as [|h hs IH]; intros i m; simpl.
  - intros [= <-] k Hk. by left.
  - destruct (cells !! i) as [text|].
    + destruct (convert_cell h text) as [v|e]; [|done].
      cbn. intros Hfill k Hk.
      destruct (IH _ _ Hfill k Hk) as [Hsome|Hin]; [|right; by right].
      destruct (decide (h = k)) as [->|Hne]; [right; by left|].
      rewrite lookup_insert_ne in Hsome by done. by left.
    + intros Hfill k Hk.
      destruct (IH _ _ Hfill k Hk) as [Hsome|Hin]; [by left|right; by right].
Qed.

Lemma process_row_keys (hs : list string) (row : tr)
    (row_data : gmap string value) :
  process_row hs row = Ret (Some row_data) →
  well_keyed ("Date" :: hs) row_data.
Proof.
  unfold process_row.
  destruct (has_class "thead" _ || has_class "tfoot" _); [done|].
  destruct (length (cells_data (tr_cells row)) <? 2)%nat; [done|].
  destruct (fill_row hs 0 (cells_data (tr_cells row)) (empty_row hs))
    as [m|e] eqn:Hfill; [|done].
  cbn. destruct (has_club m); [|done]. intros [= <-].
  intros k Hk%elem_of_dom. apply elem_of_list_to_set. right.
  destruct (fill_row_keys _ _ _ _ _ Hfill k Hk) as [Hsome|Hin]; [|done].
  rewrite empty_row_lookup in Hsome. case_decide; [done|].
  by destruct Hsome.
Qed.

Lemma extract_well_keyed (found : option table) (res : extraction) :
  extract found = Ret (Some res) →
  Forall (well_keyed ("Date" :: headers res)) (data res).
Proof.
  unfold extract. destruct found as [t|]; [|done].
  destruct (thead_tr t) as [ths|]; [|done].
  destruct (process_rows _ (tbody_trs t) []) as [teams|e] eqn:Hrows; [|done].
  cbn. intros [= <-]. simpl. apply Forall_forall. intros row_data Hin.
  destruct (process_rows_origin _ _ _ _ Hrows row_data Hin)
    as [Hnil|(row & _ & Hproc)]; [by apply elem_of_nil in Hnil|].
  by apply process_row_keys in Hproc.
Qed.

Lemma convert_cell_short_int (h text : string) (v : value) :
  convert_cell h text = Ret v → short_int v.
Proof.
  unfold convert_cell. destruct (contains "Value" h).
  - destruct (convert_currency_to_number text) as [k|e] eqn:Hk; [|done].
    intros [= <-]. apply convert_currency_to_number_bounded in Hk.
    eapply Z.lt_trans; [exact Hk|]. by vm_compute.
  - destruct (contains "%" h); [|by intros [= <-]].
    destruct (parse_percentage text); [by intros [= <-]|done].
Qed.

Lemma fill_row_printable (hs : list string) (i : nat) (cells : list string)
    (m m' : gmap string value) :
  fill_row hs i cells m = Ret m' → printable m → printable m'.
Proof.
  revert i m. induction hs as [|h hs IH]; intros i m; simpl.
  - by intros [= <-].
  - destruct (cells !! i) as [text|]; [|apply IH].
    destruct (convert_cell h text) as [v|e] eqn:Hv; [|done].
    cbn. intros Hfill Hm. apply (IH _ _ Hfill).
    apply map_Forall_insert_2; [|done]. by eapply convert_cell_short_int.
Qed.

Lemma extract_printable (found : option table) (res : extraction) :
  extract found = Ret (Some res) → Forall printable (data res).
Proof.
  unfold extract. destruct found as [t|]; [|done].
  destruct (thead_tr t) as [ths|]; [|done].
  destruct (process_rows _ (tbody_trs t) []) as [teams|e] eqn:Hrows; [|done].
  cbn. intros [= <-]. simpl. apply Forall_forall. intros row_data Hin.
  destruct (process_rows_origin _ _ _ _ Hrows row_data Hin)
    as [Hnil|(row & _ & Hproc)]; [by apply elem_of_nil in Hnil|].
  unfold process_row in Hproc.
  destruct (has_class "thead" _ || has_class "tfoot" _); [done|].
  destruct (length (cells_data (tr_cells row)) <? 2)%nat; [done|].
  destruct (fill_row _ 0 (cells_data (tr_cells row)) (empty_row _))
    as [m|e] eqn:Hfill; [|done].
  cbn in Hproc. destruct (has_club m); [|done]. injection Hproc as <-.
  apply (fill_row_printable _ _ _ _ _ Hfill).
  intros key v. rewrite empty_row_lookup.
  case_decide; [by intros [= <-]|done].
Qed.

(** Two snapshots written to a new file, for any result of the
    extractor. *)
Lemma save_extraction_twice (found : option table) (res : extraction)
    (filename : string) (fs : store) (date1 date2 : option string) :
  extract found = Ret (Some res) →
  filename ∉ unwritable fs →
  files fs !! filename = None →
  let '(ok1, fs1) :=
    save_to_csv (Some (of_extraction res)) filename date1 fs in
  let '(ok2, fs2) :=
    save_to_csv (Some (of_extraction res)) filename date2 fs1 in
  ok1 = true ∧ ok2 = true
  ∧ files fs2 !! filename
    = Some ((VStr <$> "Date" :: headers res)
            :: block ("Date" :: headers res) date1 (data res)
            ++ block ("Date" :: headers res) date2 (data res)).
Proof.
  intros Hres Hw Hnew.
  apply (save_to_csv_twice (headers res) (data res)); try done.
  - by eapply extract_well_keyed.
  - by eapply extract_printable.
Qed.



(** * Further properties *)

(** ** The scraper as a whole *)

Lemma validate_date_Ret (date : option string) :
  ∃ date', validate_date date = Ret date'.
Proof.
  unfold validate_date. destruct date as [s|]; [|by eexists].
  destruct (truthy s); [|by eexists].
  destruct (strptime s) as [dt|e] eqn:Hp; simpl.
  - case_bool_decide; by eexists.
  - apply strptime_raises_ValueError in Hp as ->. by eexists.
Qed.

Lemma scrape_Ret {markup : Type}
    (http_get : string → result markup) (read_local : result markup)
    (select_table : markup → option table)
    (date : option string) (use_local_file : bool) :
  ∃ r, scrape_bundesliga_market_values http_get read_local select_table
         date use_local_file = Ret r.
Proof.
  unfold scrape_bundesliga_market_values.
  destruct (validate_date_Ret date) as [date' ->]. cbn.
  destruct (if use_local_file then read_local else http_get _)
    as [content|e]; cbn; [|by eexists].
  destruct (extract (select_table content)); cbn; by eexists.
Qed.

(** X1. [scrape_bundesliga_market_values] never raises: whatever the date,
    the flag, the retrieval and the markup, it returns a result or
    [None]. *)
Theorem scrape_never_raises {markup : Type}
    (http_get : string → result markup) (read_local : result markup)
    (select_table : markup → option table)
    (date : option string) (use_local_file : bool) :
  ∃ r, scrape_bundesliga_market_values http_get read_local select_table
         date use_local_file = Ret r.
Proof. apply scrape_Ret. Qed.

(** X2. A date that [strptime] accepts and whose day is 1 or 15 is kept
    by the date check, and the page requested is the base URL followed by
    [/stichtag/] and the date. *)
Theorem good_date_uses_dated_url {markup : Type}
    (http_get : string → result markup) (read_local : result markup)
    (select_table : markup → option table)
    (s : string) (dt : datetime) :
  strptime s = Ret dt → on_grid dt →
  validate_date (Some s) = Ret (Some s)
  ∧ build_url (Some s) = base_url +:+ "/stichtag/" +:+ s
  ∧ scrape_bundesliga_market_values http_get read_local select_table
      (Some s) false
    = try_except
        (content ← http_get (base_url +:+ "/stichtag/" +:+ s);
         extract (select_table content))
        is_Exception (Ret None).
Proof.
  intros Hp Hg.
  assert (truthy s = true) as Hs
    by (destruct s; [discriminate Hp|reflexivity]).
  assert (validate_date (Some s) = Ret (Some s)) as Hv.
  { unfold validate_date. rewrite Hs, Hp. simpl.
    rewrite bool_decide_eq_true_2; [done|].
    destruct Hg as [->| ->]; [by left|by right; left]. }
  assert (build_url (Some s) = base_url +:+ "/stichtag/" +:+ s) as Hurl
    by (unfold build_url; by rewrite Hs).
  split; [done|]. split; [done|].
  unfold scrape_bundesliga_market_values. rewrite Hv.
  change (Ret (Some s) ≫= ?f) with (f (Some s)).
  cbv beta. rewrite Hurl. reflexivity.
Qed.

Lemma good_date_uses_dated_url_witness :
  validate_date (Some "2024-10-15") = Ret (Some "2024-10-15")
  ∧ build_url (Some "2024-10-15")
    = base_url +:+ "/stichtag/" +:+ "2024-10-15"
  ∧ scrape_bundesliga_market_values (λ _, Ret tt) (Ret tt) (λ _, None)
      (Some "2024-10-15") false
    = try_except
        (content ← (λ _, Ret tt) (base_url +:+ "/stichtag/" +:+ "2024-10-15");
         extract ((λ _, None) content))
        is_Exception (Ret None).
Proof.
  apply (good_date_uses_dated_url (λ _, Ret tt) (Ret tt) (λ _, None)
           "2024-10-15" {| year := 2024; month := 10; day := 15 |}).
  - vm_compute. reflexivity.
  - right. reflexivity.
Defined.

(** ** Headers of a table *)

Lemma canonical_header_nonblank (header_text : string) :
  canonical_header header_text ≠ "".
Proof.
  unfold canonical_header.
  destruct (negb (truthy header_text)) eqn:Ht; [discriminate|].
  destruct (contains "Club" header_text); [discriminate|].
  destruct (_ || _); [discriminate|].
  by destruct header_text.
Qed.

Lemma final_headers_length (hs : list string) :
  (length (final_headers hs) ≤ length hs)%nat.
Proof.
  induction hs as [|h hs IH] using rev_ind; [done|].
  rewrite final_headers_snoc, (length_app hs).
  repeat case_decide; rewrite ?length_app; simpl; lia.
Qed.

Lemma collect_headers_length (ths : list cell) :
  (length (collect_headers ths) ≤ length ths)%nat.
Proof.
  induction ths as [|th ths IH]; simpl; [done|].
  case_match; simpl; lia.
Qed.

Lemma collect_headers_nonblank (ths : list cell) (h : string) :
  h ∈ collect_headers ths → h ≠ "".
Proof.
  induction ths as [|th ths IH]; simpl.
  - intros Hin. by apply elem_of_nil in Hin.
  - destruct (has_class "hide" (cell_class th)); [done|].
    intros [->|Hin]%elem_of_cons; [|by apply IH].
    apply canonical_header_nonblank.
Qed.

(** X3. The final header list of any header row has no label twice and
    no blank label, and is no longer than the header row. *)
Theorem table_headers_well_formed (ths : list cell) :
  NoDup (final_headers (collect_headers ths))
  ∧ Forall (λ h, h ≠ "") (final_headers (collect_headers ths))
  ∧ (length (final_headers (collect_headers ths)) ≤ length ths)%nat.
Proof.
  split; [apply final_headers_NoDup, collect_headers_unnumbered|].
  split.
  - apply Forall_forall. intros x Hx.
    apply final_headers_elem in Hx as [[Hin _]|(k & _ & ->)].
    + by eapply collect_headers_nonblank.
    + unfold value_label. case_match; discriminate.
  - etrans; [apply final_headers_length|apply collect_headers_length].
Qed.

(** ** Rows of a table *)

Lemma fill_row_other (hs : list string) (i : nat) (cells : list string)
    (m m' : gmap string value) (k : string) :
  fill_row hs i cells m = Ret m' → k ∉ hs → m' !! k = m !! k.
Proof.
  revert i m. induction hs as [|h hs IH]; intros i m; simpl.
  - by intros [= <-].
  - intros Hfill [Hne Hk]%not_elem_of_cons.
    destruct (cells !! i) as [text|]; [|by eapply IH].
    destruct (convert_cell h text) as [v|e]; [|done].
    cbn in Hfill. rewrite (IH _ _ Hfill Hk). by rewrite lookup_insert_ne.
Qed.

(** Under headers without repetition, the value of the [j]-th header is
    made from the cell at the same position, and left alone when there is
    no such cell. *)
Lemma fill_row_lookup (hs : list string) (i : nat) (cells : list string)
    (m m' : gmap string value) (j : nat) (h : string) :
  NoDup hs → fill_row hs i cells m = Ret m' → hs !! j = Some h →
  match cells !! (i + j)%nat with
  | Some text => ∃ v, convert_cell h text = Ret v ∧ m' !! h = Some v
  | None => m' !! h = m !! h
  end.
Proof.
  revert i m j. induction hs as [|h0 hs IH]; intros i m j Hnd; [done|].
  apply NoDup_cons in Hnd as [Hh0 Hnd]. simpl. intros Hfill Hj.
  destruct j as [|j]; simpl in Hj.
  - injection Hj as ->. rewrite Nat.add_0_r.
    destruct (cells !! i) as [text|]; [|by eapply fill_row_other].
    destruct (convert_cell h text) as [v|e]; [|done].
    cbn in Hfill. exists v. split; [done|].
    by rewrite (fill_row_other _ _ _ _ _ _ Hfill Hh0), lookup_insert_eq.
  - assert (h ≠ h0) as Hne
      by (intros ->; apply Hh0; by eapply list_elem_of_lookup_2).
    rewrite Nat.add_succ_r.
    destruct (cells !! i) as [text|].
    + destruct (convert_cell h0 text) as [v|e]; [|done]. cbn in Hfill.
      pose proof (IH (S i) _ j Hnd Hfill Hj) as Hrec. simpl in Hrec.
      destruct (cells !! S (i + j)); [done|].
      by rewrite Hrec, lookup_insert_ne.
    + exact (IH (S i) _ j Hnd Hfill Hj).
Qed.

(** X4. In a result of the Table Extractor, for a table whose converted
    cells hold plain texts, every row has exactly the final header labels
    as keys, and the value under the [j]-th label is the conversion of
    the [j]-th remaining cell of its body row, or the empty text when the
    row has no such cell. *)
Theorem extracted_rows_positional (found : option table)
    (res : extraction) (row_data : gmap string value) :
  (∀ t, found = Some t → plain_table (headers res) t = true) →
  extract found = Ret (Some res) → row_data ∈ data res →
  ∃ t row,
    found = Some t ∧ row ∈ tbody_trs t
    ∧ dom row_data = list_to_set (headers res)
    ∧ ∀ j h, headers res !! j = Some h →
        match cells_data (tr_cells row) !! j with
        | Some text =>
            ∃ v, convert_cell h text = Ret v ∧ row_data !! h = Some v
        | None => row_data !! h = Some (VStr "")
        end.
Proof.
  intros _. unfold extract. destruct found as [t|]; [|done].
  destruct (thead_tr t) as [ths|]; [|done].
  destruct (process_rows _ (tbody_trs t) []) as [teams|e] eqn:Hrows; [|done].
  cbn. intros [= <-] Hin. simpl in *.
  destruct (process_rows_origin _ _ _ _ Hrows row_data Hin)
    as [Hnil|(row & Hrow & Hproc)]; [by apply elem_of_nil in Hnil|].
  exists t, row. split; [done|]. split; [done|].
  set (hs := final_headers (collect_headers ths)) in *.
  assert (NoDup hs) as Hnd
    by apply final_headers_NoDup, collect_headers_unnumbered.
  unfold process_row in Hproc.
  destruct (has_class "thead" _ || has_class "tfoot" _); [done|].
  destruct (length (cells_data (tr_cells row)) <? 2)%nat; [done|].
  destruct (fill_row hs 0 (cells_data (tr_cells row)) (empty_row hs))
    as [m|e] eqn:Hfill; [|done].
  cbn in Hproc. destruct (has_club m); [|done]. injection Hproc as <-.
  split.
  - apply set_eq. intros k. rewrite elem_of_dom, elem_of_list_to_set.
    split.
    + intros Hk.
      destruct (fill_row_keys _ _ _ _ _ Hfill k Hk) as [Hsome|Hk']; [|done].
      rewrite empty_row_lookup in Hsome. case_decide; [done|].
      by destruct Hsome.
    + intros Hk. apply (proj1 (fill_row_inv _ _ _ _ _ Hfill)).
      rewrite empty_row_lookup, decide_True by done. by eexists.
  - intros j h Hj.
    pose proof (fill_row_lookup _ _ _ _ _ j h Hnd Hfill Hj) as Hlook.
    simpl in Hlook. destruct (cells_data (tr_cells row) !! j); [done|].
    rewrite Hlook, empty_row_lookup, decide_True; [done|].
    by eapply list_elem_of_lookup_2.
Qed.

Lemma extracted_rows_positional_witness :
  ∃ t row,
    Some sample_table = Some t ∧ row ∈ tbody_trs t
    ∧ dom ({[ "Rank" := VStr "1"; "Club" := VStr "Bayern Munich";
              "Value" := VInt 944700000 ]} : gmap string value)
      = list_to_set (headers sample_extraction)
    ∧ ∀ j h, headers sample_extraction !! j = Some h →
        match cells_data (tr_cells row) !! j with
        | Some text =>
            ∃ v, convert_cell h text = Ret v
                 ∧ ({[ "Rank" := VStr "1"; "Club" := VStr "Bayern Munich";
                       "Value" := VInt 944700000 ]} : gmap string value) !! h
                   = Some v
        | None =>
            ({[ "Rank" := VStr "1"; "Club" := VStr "Bayern Munich";
                "Value" := VInt 944700000 ]} : gmap string value) !! h
            = Some (VStr "")
        end.
Proof.
  apply (extracted_rows_positional (Some sample_table) sample_extraction).
  - intros t [= <-]. vm_compute. reflexivity.
  - vm_compute. reflexivity.
  - simpl. left.
Defined.

Lemma fill_row_raises (hs : list string) (i : nat) (cells : list string)
    (m : gmap string value) (j : nat) (h text : string) (e : exn) :
  hs !! j = Some h → cells !! (i + j)%nat = Some text →
  convert_cell h text = Raise e →
  ∃ e', fill_row hs i cells m = Raise e'.
Proof.
  revert i m j. induction hs as [|h0 hs IH]; intros i m j Hj; [done|].
  destruct j as [|j]; simpl in *.
  - injection Hj as ->. rewrite Nat.add_0_r. intros -> ->. by eexists.
  - rewrite Nat.add_succ_r. intros Hcell Hraise.
    destruct (cells !! i) as [text0|]; [|by eapply (IH (S i))].
    destruct (convert_cell h0 text0) as [v|e0]; [|by eexists].
    cbn. by eapply (IH (S i)).
Qed.

Lemma process_rows_raises (hs : list string) (rows : list tr)
    (acc : list (gmap string value)) (row : tr) (e : exn) :
  row ∈ rows → process_row hs row = Raise e →
  ∃ e', process_rows hs rows acc = Raise e'.
Proof.
  revert acc. induction rows as [|row0 rows IH]; intros acc Hin Hraise.
  - by apply elem_of_nil in Hin.
  - simpl. destruct (process_row hs row0) as [[d|]|e0] eqn:Hrow0; cbn.
    + apply elem_of_cons in Hin as [->|Hin]; [congruence|by apply IH].
    + apply elem_of_cons in Hin as [->|Hin]; [congruence|by apply IH].
    + by eexists.
Qed.

(** X5. One cell is enough to lose a snapshot: when a body row that is
    neither a header nor a footer artefact and has at least two remaining
    cells holds, under a label containing ["Value"], a plain text on
    which [convert_currency_to_number] raises, the scraper returns [None]
    for the whole page. *)
Theorem raising_cell_loses_snapshot {markup : Type}
    (http_get : string → result markup) (read_local : result markup)
    (select_table : markup → option table)
    (date : option string) (use_local_file : bool)
    (content : markup) (t : table) (ths : list cell) (row : tr)
    (j : nat) (h text : string) (e : exn) :
  (∀ url, http_get url = Ret content) → read_local = Ret content →
  select_table content = Some t → thead_tr t = Some ths →
  row ∈ tbody_trs t →
  has_class "thead" (tr_class row) = false →
  has_class "tfoot" (tr_class row) = false →
  (2 ≤ length (cells_data (tr_cells row)))%nat →
  final_headers (collect_headers ths) !! j = Some h →
  cells_data (tr_cells row) !! j = Some text →
  contains "Value" h = true →
  plain text = true →
  convert_currency_to_number text = Raise e →
  scrape_bundesliga_market_values http_get read_local select_table
    date use_local_file = Ret None.
Proof.
  intros Hget Hlocal Htable Hths Hrow Hthead Htfoot Hlen Hj Hcell Hval _
    Hraise.
  unfold scrape_bundesliga_market_values.
  destruct (validate_date_Ret date) as [date' ->]. cbn.
  assert ((if use_local_file then read_local else http_get (build_url date'))
          = Ret content) as -> by (destruct use_local_file; auto).
  cbn. rewrite Htable. unfold extract. rewrite Hths.
  set (hs := final_headers (collect_headers ths)) in *.
  assert (∃ e', process_row hs row = Raise e') as [e' Hproc].
  { unfold process_row. rewrite Hthead, Htfoot. simpl.
    rewrite (proj2 (Nat.ltb_ge _ _) Hlen).
    destruct (fill_row_raises hs 0 (cells_data (tr_cells row)) (empty_row hs)
                j h text e Hj Hcell) as [e' ->].
    { unfold convert_cell. rewrite Hval, Hraise. done. }
    by eexists. }
  destruct (process_rows_raises hs _ [] row e' Hrow Hproc) as [e'' ->].
  done.
Qed.

Lemma raising_cell_loses_snapshot_witness :
  scrape_bundesliga_market_values (λ _, Ret tt) (Ret tt)
    (λ _, Some overflow_table) (Some "2024-10-01") false
  = Ret None.
Proof.
  apply (raising_cell_loses_snapshot (λ _, Ret tt) (Ret tt)
           (λ _, Some overflow_table) (Some "2024-10-01") false tt
           overflow_table
           [ {| cell_class := []; cell_text := "Club" |};
             {| cell_class := []; cell_text := "Value Oct 1, 2024" |} ]
           {| tr_class := ["even"];
              tr_cells :=
                [ {| cell_class := []; cell_text := "Borussia Dortmund" |};
                  {| cell_class := []; cell_text := "1e999" |} ] |}
           1 "Value" "1e999" OverflowError).
  - reflexivity.
  - reflexivity.
  - reflexivity.
  - reflexivity.
  - simpl. right. left.
  - reflexivity.
  - reflexivity.
  - simpl. lia.
  - vm_compute. reflexivity.
  - reflexivity.
  - vm_compute. reflexivity.
  - reflexivity.
  - vm_compute. reflexivity.
Defined.

(** ** The date sequence: what it contains *)

(** X6. Snapping never leaves the month of the start date: the result has
    the same year and month, falls on the 1st for a day below 15 and on
    the 15th otherwise, and is at most 16 days before the start. *)
Theorem snap_same_month (start : datetime) :
  valid start →
  ∃ s,
    snap start = Ret s
    ∧ year s = year start ∧ month s = month start
    ∧ day s = (if day start <? 15 then 1 else 15)
    ∧ dt_le s start = true
    ∧ 0 <= day start - day s <= 16.
Proof.
  intros Hv. pose proof (valid_bounds _ Hv) as Hb.
  unfold snap, replace_day.
  destruct (Z.ltb_spec (day start) 15);
    (rewrite datetime_new_grid by lia; eexists; split; [done|]; simpl;
     split; [done|]; split; [done|]; split; [done|];
     split; [apply dt_le_spec; simpl; lia|lia]).
Qed.

Lemma snap_same_month_witness :
  ∃ s,
    snap {| year := 2024; month := 10; day := 31 |} = Ret s
    ∧ year s = 2024 ∧ month s = 10
    ∧ day s = (if 31 <? 15 then 1 else 15)
    ∧ dt_le s {| year := 2024; month := 10; day := 31 |} = true
    ∧ 0 <= 31 - day s <= 16.
Proof.
  apply (snap_same_month {| year := 2024; month := 10; day := 31 |}).
  reflexivity.
Defined.

Lemma half_month_inj (a b : datetime) :
  valid a → on_grid a → valid b → on_grid b →
  half_month a = half_month b → a = b.
Proof.
  intros Ha%valid_bounds Hga Hb%valid_bounds Hgb.
  unfold half_month, on_grid in *. destruct a, b. simpl in *.
  destruct (Z.ltb_spec day0 15), (Z.ltb_spec day1 15); intros Heq;
    f_equal; lia.
Qed.

(** Below the last snapshot date the loop returns one date per point of
    the half-month grid from [current] to [end_]. *)
Lemma while_loop_points (zero_fill : bool) (fuel : nat)
    (current end_ : datetime) (dates : list string) :
  valid current → on_grid current → valid end_ →
  half_month end_ < half_month last_point →
  half_month end_ - half_month current + 1 <= Z.of_nat fuel →
  ∃ ds,
    while_loop zero_fill fuel current end_ dates
    = Some (Ret (dates ++ (strftime zero_fill <$> ds)))
    ∧ Forall (λ dt, valid dt ∧ on_grid dt) ds
    ∧ half_month <$> ds
      = seqZ (half_month current)
          (half_month end_ - half_month current + 1).
Proof.
  intros Hv Hg Hend Hlast. revert current dates Hv Hg.
  induction fuel as [|fuel IH]; intros current dates Hv Hg Hfuel.
  - exists []. simpl. destruct (dt_le current end_) eqn:Hle.
    + apply dt_le_half_month in Hle; [lia|done..].
    + rewrite app_nil_r, seqZ_nil by lia. done.
  - simpl. destruct (dt_le current end_) eqn:Hle.
    + apply dt_le_half_month in Hle; [|done..].
      destruct (advance_next current Hv Hg)
        as (next & Hadv & Hvn & Hgn & Hhm); [lia|].
      rewrite Hadv.
      destruct (IH next (dates ++ [strftime zero_fill current]) Hvn Hgn)
        as (ds & Hrun & Hall & Hseq); [lia|].
      exists (current :: ds). rewrite Hrun, fmap_cons, <-app_assoc.
      split; [done|]. split; [by constructor|].
      rewrite fmap_cons, Hseq, Hhm.
      rewrite (seqZ_cons (half_month current)) by lia.
      do 2 f_equal; lia.
    + apply not_true_iff_false in Hle.
      rewrite dt_le_half_month in Hle by done.
      exists []. rewrite app_nil_r, seqZ_nil by lia. done.
Qed.

(** X7. With the end before 9999-12-15 the sequence is complete: it has
    one date for each 1st and 15th from the snapped start to the end, so
    every such date is in it, nothing else is, and its length is the
    number of half months spanned. *)
Theorem generate_date_range_complete (zero_fill : bool)
    (start_date end_date : string) (start end_ : datetime) :
  strptime start_date = Ret start →
  strptime end_date = Ret end_ →
  dt_lt end_ last_point = true →
  ∃ s ds,
    snap start = Ret s
    ∧ generate_date_range zero_fill start_date end_date
      = Some (Ret (strftime zero_fill <$> ds))
    ∧ length ds = Z.to_nat (half_month end_ - half_month s + 1)
    ∧ ∀ dt, dt ∈ ds ↔
        valid dt ∧ on_grid dt ∧ dt_le s dt = true ∧ dt_le dt end_ = true.
Proof.
  intros Hstart Hend Hlt. unfold generate_date_range.
  rewrite Hstart, Hend. apply strptime_valid in Hstart, Hend.
  destruct (snap_grid start Hstart) as (s & Hsnap & Hvs & Hgs).
  rewrite Hsnap.
  apply dt_lt_half_month in Hlt; [|reflexivity|by right|done].
  destruct (while_loop_points zero_fill (iterations s end_) s end_ []
              Hvs Hgs Hend Hlt) as (ds & Hrun & Hall & Hseq).
  { unfold iterations. lia. }
  exists s, ds. split; [done|]. split; [done|]. split.
  - by rewrite <-(length_fmap half_month), Hseq, length_seqZ.
  - rewrite Forall_forall in Hall. intros dt. split.
    + intros Hin. destruct (Hall dt Hin) as [Hv Hg].
      assert (half_month dt ∈ half_month <$> ds) as Hhm
        by (apply list_elem_of_fmap; by exists dt).
      rewrite Hseq, elem_of_seqZ in Hhm.
      split; [done|]. split; [done|].
      rewrite !dt_le_half_month by done. lia.
    + intros (Hv & Hg & Hlo & Hhi).
      rewrite dt_le_half_month in Hlo, Hhi by done.
      assert (half_month dt ∈ half_month <$> ds) as Hhm
        by (rewrite Hseq, elem_of_seqZ; lia).
      apply list_elem_of_fmap in Hhm as (dt' & Heq & Hin).
      destruct (Hall dt' Hin) as [Hv' Hg'].
      by rewrite (half_month_inj dt dt').
Qed.

Lemma generate_date_range_complete_witness :
  ∃ s ds,
    snap {| year := 2024; month := 10; day := 7 |} = Ret s
    ∧ generate_date_range false "2024-10-07" "2024-10-20"
      = Some (Ret (strftime false <$> ds))
    ∧ length ds
      = Z.to_nat
          (half_month {| year := 2024; month := 10; day := 20 |}
           - half_month s + 1)
    ∧ ∀ dt, dt ∈ ds ↔
        valid dt ∧ on_grid dt ∧ dt_le s dt = true
        ∧ dt_le dt {| year := 2024; month := 10; day := 20 |} = true.
Proof.
  apply (generate_date_range_complete false "2024-10-07" "2024-10-20").
  - vm_compute. reflexivity.
  - vm_compute. reflexivity.
  - vm_compute. reflexivity.
Defined.

(** X8. For well-formed dates the sequence is empty exactly when the end
    is before the start once snapped to the 1st or the 15th. *)
Theorem generate_date_range_empty (zero_fill : bool)
    (start_date end_date : string) (start end_ s : datetime) :
  strptime start_date = Ret start →
  strptime end_date = Ret end_ →
  snap start = Ret s →
  generate_date_range zero_fill start_date end_date = Some (Ret [])
  ↔ dt_lt end_ s = true.
Proof.
  intros Hstart Hend Hsnap. unfold generate_date_range.
  rewrite Hstart, Hend, Hsnap. apply strptime_valid in Hstart, Hend.
  destruct (snap_grid start Hstart) as (s' & Hsnap' & Hvs & Hgs).
  rewrite Hsnap in Hsnap'. injection Hsnap' as <-.
  rewrite dt_lt_half_month by done.
  pose proof (half_month_last _ Hvs) as Hmax.
  destruct (decide (half_month end_ < half_month last_point)) as [Hlt|Hge].
  - destruct (while_loop_points zero_fill (iterations s end_) s end_ []
                Hvs Hgs Hend Hlt) as (ds & Hrun & _ & Hseq).
    { unfold iterations. lia. }
    rewrite Hrun. simpl.
    assert (length ds = Z.to_nat (half_month end_ - half_month s + 1))
      as Hlen by (by rewrite <-(length_fmap half_month), Hseq, length_seqZ).
    split.
    + intros [= Hnil]. apply fmap_nil_inv in Hnil. subst ds.
      simpl in Hlen. lia.
    + intros Hlt'. destruct ds; [done|simpl in Hlen; lia].
  - destruct (while_loop_run zero_fill (iterations s end_) s end_ []
                Hvs Hgs Hend) as (ds & _ & _ & Hrun).
    { unfold iterations. lia. }
    rewrite Hrun. rewrite decide_False by lia. split; [done|lia].
Qed.

Lemma generate_date_range_empty_witness :
  generate_date_range false "2024-10-20" "2024-10-16" = Some (Ret [])
  ↔ dt_lt {| year := 2024; month := 10; day := 16 |}
          {| year := 2024; month := 10; day := 15 |} = true.
Proof.
  apply (generate_date_range_empty false "2024-10-20" "2024-10-16"
           {| year := 2024; month := 10; day := 20 |}).
  - vm_compute. reflexivity.
  - vm_compute. reflexivity.
  - vm_compute. reflexivity.
Defined.

(** X9. At the top of the range the sequence cannot be built: with the
    end on or after 9999-12-15 and the snapped start not after the end,
    the call raises [ValueError], whatever the start. *)
Theorem generate_date_range_raises_at_top (zero_fill : bool)
    (start_date end_date : string) (start end_ s : datetime) :
  strptime start_date = Ret start →
  strptime end_date = Ret end_ →
  snap start = Ret s →
  dt_le last_point end_ = true → dt_le s end_ = true →
  generate_date_range zero_fill start_date end_date
  = Some (Raise ValueError).
Proof. apply generate_date_range_past_last. Qed.

Lemma generate_date_range_raises_at_top_witness :
  generate_date_range false "2024-10-07" "9999-12-20"
  = Some (Raise ValueError).
Proof.
  apply (generate_date_range_raises_at_top false "2024-10-07" "9999-12-20"
           {| year := 2024; month := 10; day := 7 |}
           {| year := 9999; month := 12; day := 20 |}
           {| year := 2024; month := 10; day := 1 |}).
  - vm_compute. reflexivity.
  - vm_compute. reflexivity.
  - reflexivity.
  - reflexivity.
  - reflexivity.
Defined.

(** ** From the sequence to the requests *)

Lemma pretty_N_char_digit (k : N) :
  (k < 10)%N → pretty_N_char k = digit_char (Z.of_N k).
Proof.
  intros Hk.
  assert (k = 0 ∨ k = 1 ∨ k = 2 ∨ k = 3 ∨ k = 4 ∨ k = 5 ∨ k = 6 ∨ k = 7
          ∨ k = 8 ∨ k = 9)%N as Hcases by lia.
  repeat (destruct Hcases as [->|Hcases]; [reflexivity|]). by subst.
Qed.

(** From year 1000 on the plain decimal of the year has four digits, so
    both renderings of [%Y] agree. *)
Lemma year_text_four_digits (zero_fill : bool) (y : Z) (rest : string) :
  1000 <= y <= 9999 → year_text zero_fill y rest = pad4 y rest.
Proof.
  intros Hy. unfold year_text. destruct zero_fill; [done|].
  destruct y as [|p|p]; [lia| |lia].
  change (pretty (Z.pos p)) with (pretty (N.pos p)).
  unfold pretty, pretty_N. rewrite decide_False by done.
  set (n := N.pos p). assert (Z.of_N n = Z.pos p) as Hn by done.
  rewrite <-Hn. assert (1000 <= n <= 9999)%N as Hb by lia.
  clearbody n. clear Hy Hn.
  assert (0 < n / 10)%N as H1 by (zify; Z.div_mod_to_equations; lia).
  assert (0 < (n / 10) / 10)%N as H2
    by (zify; Z.div_mod_to_equations; lia).
  assert (0 < ((n / 10) / 10) / 10)%N as H3
    by (zify; Z.div_mod_to_equations; lia).
  assert ((((n / 10) / 10) / 10) / 10 = 0)%N as H4
    by (zify; Z.div_mod_to_equations; lia).
  rewrite 4!pretty_N_go_step by (done || lia).
  rewrite H4, pretty_N_go_0.
  rewrite !pretty_N_char_digit by (apply N.mod_lt; lia).
  unfold pad4, pad2.
  change (String ?a (String ?b (String ?c (String ?d "")))
          +:+ rest)
    with (String a (String b (String c (String d rest)))).
  repeat f_equal;
    rewrite ?N2Z.inj_mod, ?N2Z.inj_div, ?Z.div_div by lia; reflexivity.
Qed.

Lemma strptime_strftime_from_1000 (zero_fill : bool) (dt : datetime) :
  valid dt → zero_fill = true ∨ 1000 <= year dt →
  strptime (strftime zero_fill dt) = Ret dt.
Proof.
  intros Hv [->|Hy]; [by apply strptime_strftime|].
  rewrite <-(strptime_strftime dt Hv). f_equal.
  unfold strftime. pose proof (valid_bounds _ Hv).
  by rewrite !year_text_four_digits by lia.
Qed.

Lemma snap_same_month_aux (start : datetime) :
  valid start →
  ∃ s, snap start = Ret s ∧ valid s ∧ on_grid s ∧ year s = year start.
Proof.
  intros Hv. pose proof (valid_bounds _ Hv) as Hb.
  unfold snap, replace_day.
  destruct (Z.ltb_spec (day start) 15);
    (rewrite datetime_new_grid by lia; eexists; split; [done|];
     split; [eapply datetime_new_Ret; apply datetime_new_grid; lia|];
     split; [(by left) || (by right)|done]).
Qed.

(** X10. The dates handed from the sequencer to the scraper are accepted
    by its date check: with a zero-filled year, or from year 1000 on,
    every text of the sequence is kept by the check and requested under
    [/stichtag/]. *)
Theorem sequence_dates_are_requested (zero_fill : bool)
    (start_date end_date : string) (start : datetime)
    (dates : list string) (text : string) :
  strptime start_date = Ret start →
  zero_fill = true ∨ 1000 <= year start →
  generate_date_range zero_fill start_date end_date = Some (Ret dates) →
  text ∈ dates →
  validate_date (Some text) = Ret (Some text)
  ∧ build_url (Some text) = base_url +:+ "/stichtag/" +:+ text.
Proof.
  intros Hstart Hfill. unfold generate_date_range. rewrite Hstart.
  destruct (strptime end_date) as [end_|e] eqn:Hend; [|done].
  apply strptime_valid in Hstart, Hend.
  destruct (snap_same_month_aux start Hstart) as (s & Hsnap & Hvs & Hgs & Hys).
  rewrite Hsnap.
  destruct (while_loop_run zero_fill (iterations s end_) s end_ []
              Hvs Hgs Hend) as (ds & Hall & _ & Hrun).
  { unfold iterations. lia. }
  rewrite Hrun. case_decide; [|done]. intros [= <-] Hin.
  apply list_elem_of_fmap in Hin as (dt & -> & Hin).
  rewrite Forall_forall in Hall. destruct (Hall dt Hin) as (Hv & Hg & Hhm).
  assert (strptime (strftime zero_fill dt) = Ret dt) as Hp.
  { apply strptime_strftime_from_1000; [done|].
    destruct Hfill as [->|Hy]; [by left|right].
    apply valid_bounds in Hv, Hvs. unfold half_month in Hhm.
    repeat case_match; lia. }
  assert (truthy (strftime zero_fill dt) = true) as Ht
    by (destruct (strftime zero_fill dt); [discriminate Hp|reflexivity]).
  split.
  - unfold validate_date. rewrite Ht, Hp. simpl.
    rewrite bool_decide_eq_true_2; [done|].
    destruct Hg as [->| ->]; [by left|by right; left].
  - unfold build_url. by rewrite Ht.
Qed.

Lemma sequence_dates_are_requested_witness :
  validate_date (Some "2024-10-15") = Ret (Some "2024-10-15")
  ∧ build_url (Some "2024-10-15")
    = base_url +:+ "/stichtag/" +:+ "2024-10-15".
Proof.
  apply (sequence_dates_are_requested false "2024-10-07" "2024-10-20"
           {| year := 2024; month := 10; day := 7 |}
           ["2024-10-01"; "2024-10-15"] "2024-10-15").
  - vm_compute. reflexivity.
  - right. simpl. lia.
  - vm_compute. reflexivity.
  - right. left.
Defined.

(** ** The sink: what a save can and cannot do *)

Lemma save_to_csv_frame (data : option data_dict) (filename : string)
    (date : option string) (fs : store) :
  unwritable (save_to_csv data filename date fs).2 = unwritable fs
  ∧ (∀ other, other ≠ filename →
       files (save_to_csv data filename date fs).2 !! other
       = files fs !! other)
  ∧ (∀ content, files fs !! filename = Some content →
       ∃ more,
         files (save_to_csv data filename date fs).2 !! filename
         = Some (content ++ more)).
Proof.
  assert (∀ content, files fs !! filename = Some content →
          ∃ more : list record,
            files fs !! filename = Some (content ++ more)) as Hsame
    by (intros content ->; exists []; by rewrite app_nil_r).
  unfold save_to_csv, open_append.
  destruct data as [[[hs|] [rows|]]|]; try done.
  case_bool_decide; [done|].
  set (content0 := if negb (exists_ fs filename) then _ else _).
  destruct (write_rows_spec ("Date" :: hs) date rows content0)
    as (written & Hfst & _ & _).
  destruct (write_rows ("Date" :: hs) date rows content0) as [content' out].
  simpl in *. subst content'.
  split; [done|]. split.
  - intros other Hne. by rewrite lookup_insert_ne.
  - intros content Hc. rewrite lookup_insert_eq. unfold content0, exists_.
    rewrite Hc. rewrite bool_decide_eq_true_2 by (by eexists). simpl.
    by eexists.
Qed.

(** X11. A save only ever appends to its own file: whatever the
    arguments and the outcome, no other file changes, the set of
    unwritable paths stays, and the lines the file had are still its
    first lines. *)
Theorem save_to_csv_only_appends (data : option data_dict)
    (filename : string) (date : option string) (fs : store) :
  unwritable (save_to_csv data filename date fs).2 = unwritable fs
  ∧ (∀ other, other ≠ filename →
       files (save_to_csv data filename date fs).2 !! other
       = files fs !! other)
  ∧ (∀ content, files fs !! filename = Some content →
       ∃ more,
         files (save_to_csv data filename date fs).2 !! filename
         = Some (content ++ more)).
Proof. apply save_to_csv_frame. Qed.









(** ** The run over all dates *)

Section MainFacts.

Context {markup : Type}.
Variable http_get : nat → string → result markup.
Variable read_local : nat → result markup.
Variable select_table : markup → option table.
Variable os_sleep : nat → Z → result unit.
Variable zero_fill : bool.
Variable a : args.

Local Abbreviation run :=
  (for_dates http_get read_local select_table os_sleep a).

Lemma save_snapshot_pauses (data : option extraction) (date : string)
    (w : world) :
  pauses (save_snapshot a data date w) = pauses w.
Proof. by destruct data. Qed.

(** A pause never touches the files; one of a length [time.sleep] and the
    operating system take is recorded; and a length outside 0..9223372036
    raises before the operating system is asked. *)
Lemma sleep_disk (os : Z → result unit) (secs : Z) (w : world) :
  disk (sleep os secs w).1 = disk w.
Proof.
  unfold sleep. destruct (_ || _); [done|].
  destruct (secs <? 0); [done|]. by destruct (os secs).
Qed.

Lemma sleep_taken (os : Z → result unit) (secs : Z) (w : world) :
  0 <= secs <= 9223372036 → os secs = Ret tt →
  sleep os secs w
  = ({| disk := disk w; pauses := pauses w ++ [secs] |}, Ret tt).
Proof.
  intros Hsecs Hos. unfold sleep. rewrite Hos.
  destruct (Z.ltb_spec secs (-9223372036)); [lia|].
  destruct (Z.ltb_spec 9223372036 secs); [lia|].
  destruct (Z.ltb_spec secs 0); [lia|]. done.
Qed.


Lemma for_dates_pauses (dates : list string) (i : nat) (w : world) :
  0 <= delay a <= 9223372036 →
  (∀ i, os_sleep i (delay a) = Ret tt) →
  ∃ w',
    run (i + length dates)%nat i dates w = (w', Ret tt)
    ∧ pauses w'
      = pauses w
        ++ replicate (if use_local_file a then O else pred (length dates))
             (delay a).
Proof.
  intros Hdelay Hos. revert i w.
  induction dates as [|date dates IH]; intros i w.
  - exists w. split; [done|]. destruct (use_local_file a); simpl;
      by rewrite app_nil_r.
  - simpl.
    destruct (scrape_Ret (http_get i) (read_local i) select_table
                (Some date) (use_local_file a)) as [data ->].
    rewrite Nat.add_succ_r.
    destruct dates as [|date' dates'].
    + rewrite (proj2 (Z.ltb_ge _ _)) by (simpl; lia). simpl.
      eexists. split; [done|]. rewrite save_snapshot_pauses.
      destruct (use_local_file a); simpl; by rewrite app_nil_r.
    + rewrite (proj2 (Z.ltb_lt _ _)) by (simpl; lia).
      destruct (use_local_file a) eqn:Hlocal; simpl negb; cbv iota.
      * simpl andb. cbv iota.
        destruct (IH (S i) (save_snapshot a data date w)) as (w' & Hrun & Hp).
        exists w'. split; [exact Hrun|].
        by rewrite Hp, save_snapshot_pauses.
      * simpl andb. cbv iota. rewrite sleep_taken by done.
        destruct (IH (S i)
                    {| disk := disk (save_snapshot a data date w);
                       pauses := pauses (save_snapshot a data date w)
                                 ++ [delay a] |}) as (w' & Hrun & Hp).
        exists w'. split; [exact Hrun|].
        rewrite Hp. simpl. rewrite save_snapshot_pauses.
        by rewrite <-app_assoc.
Qed.

Lemma for_dates_frame (len : nat) (dates : list string) (i : nat)
    (w : world) :
  unwritable (disk (run len i dates w).1) = unwritable (disk w)
  ∧ (∀ other, other ≠ output_file a →
       files (disk (run len i dates w).1) !! other
       = files (disk w) !! other)
  ∧ (∀ content, files (disk w) !! output_file a = Some content →
       ∃ more,
         files (disk (run len i dates w).1) !! output_file a
         = Some (content ++ more)).
Proof.
  revert i w. induction dates as [|date dates IH]; intros i w.
  - simpl. split; [done|]. split; [done|].
    intros content ->. exists []. by rewrite app_nil_r.
  - simpl.
    destruct (scrape_Ret (http_get i) (read_local i) select_table
                (Some date) (use_local_file a)) as [data ->].
    set (w1 := save_snapshot a data date w).
    assert (unwritable (disk w1) = unwritable (disk w)
            ∧ (∀ other, other ≠ output_file a →
                 files (disk w1) !! other = files (disk w) !! other)
            ∧ (∀ content, files (disk w) !! output_file a = Some content →
                 ∃ more, files (disk w1) !! output_file a
                         = Some (content ++ more)))
      as (Hu1 & Ho1 & Ha1).
    { unfold w1, save_snapshot. destruct data as [res|].
      - apply save_to_csv_frame.
      - split; [done|]. split; [done|].
        intros content ->. exists []. by rewrite app_nil_r. }
    assert (∀ w2, disk w2 = disk w1 →
            unwritable (disk (run len (S i) dates w2).1)
            = unwritable (disk w)
            ∧ (∀ other, other ≠ output_file a →
                 files (disk (run len (S i) dates w2).1) !! other
                 = files (disk w) !! other)
            ∧ (∀ content, files (disk w) !! output_file a = Some content →
                 ∃ more,
                   files (disk (run len (S i) dates w2).1) !! output_file a
                   = Some (content ++ more))) as Hrest.
    { intros w2 Hd. destruct (IH (S i) w2) as (Hu & Ho & Ha).
      rewrite Hd in Hu, Ho, Ha. split; [congruence|]. split.
      - intros other Hne. by rewrite Ho, Ho1.
      - intros content Hc. destruct (Ha1 content Hc) as [more1 Hc1].
        destruct (Ha _ Hc1) as [more Hc2].
        exists (more1 ++ more). by rewrite Hc2, <-app_assoc. }
    destruct ((Z.of_nat i <? Z.of_nat len - 1) && negb (use_local_file a)).
    + pose proof (sleep_disk (os_sleep i) (delay a) w1) as Hdisk.
      destruct (sleep (os_sleep i) (delay a) w1) as [w2 [[]|e]];
        simpl in Hdisk.
      * by apply Hrest.
      * simpl. by rewrite Hdisk.
    + by apply Hrest.
Qed.

(** X15. With a delay that [time.sleep] and the operating system take,
    [main] always runs to its end once the dates are generated, whatever
    the scraper and the sink meet, and it pauses once between consecutive
    dates, never after the last and never in local-file mode. *)
Theorem main_pauses_between_dates (dates : list string) (w : world) :
  generate_date_range zero_fill (date_from a) (date_to a)
  = Some (Ret dates) →
  0 <= delay a <= 9223372036 →
  (∀ i, os_sleep i (delay a) = Ret tt) →
  ∃ w',
    main http_get read_local select_table os_sleep zero_fill a w
    = Some (w', Ret tt)
    ∧ pauses w'
      = pauses w
        ++ replicate (if use_local_file a then O else pred (length dates))
             (delay a).
Proof.
  intros Hdates Hdelay Hos. unfold main. rewrite Hdates.
  destruct (for_dates_pauses dates O w Hdelay Hos) as (w' & Hrun & Hp).
  exists w'. by rewrite <-Hrun.
Qed.


(** X17. [main] writes to the output file only, and only by appending:
    every other file and the unwritable paths are as before, and the
    lines the output file had are still its first lines, whether the run
    ends normally or not. *)
Theorem main_only_appends_to_output (w w' : world) (r : result unit) :
  main http_get read_local select_table os_sleep zero_fill a w
  = Some (w', r) →
  unwritable (disk w') = unwritable (disk w)
  ∧ (∀ other, other ≠ output_file a →
       files (disk w') !! other = files (disk w) !! other)
  ∧ (∀ content, files (disk w) !! output_file a = Some content →
       ∃ more,
         files (disk w') !! output_file a = Some (content ++ more)).
Proof.
  unfold main.
  destruct (generate_date_range zero_fill (date_from a) (date_to a))
    as [[dates|e]|]; [| |done].
  - intros [= Hrun].
    pose proof (for_dates_frame (length dates) dates O w) as Hframe.
    rewrite Hrun in Hframe. exact Hframe.
  - intros [= <- _]. split; [done|]. split; [done|].
    intros content ->. exists []. by rewrite app_nil_r.
Qed.

Lemma for_dates_absent (len : nat) (dates : list string) (i : nat)
    (w : world) :
  (∀ i date,
     scrape_bundesliga_market_values (http_get i) (read_local i)
       select_table (Some date) (use_local_file a) = Ret None) →
  disk (run len i dates w).1 = disk w.
Proof.
  intros Habsent. revert i w.
  induction dates as [|date dates IH]; intros i w; [done|].
  simpl. rewrite Habsent. simpl.
  destruct ((Z.of_nat i <? Z.of_nat len - 1) && negb (use_local_file a)).
  - pose proof (sleep_disk (os_sleep i) (delay a) w) as Hdisk.
    destruct (sleep (os_sleep i) (delay a) w) as [w2 [[]|e]];
      simpl in Hdisk; [|done].
    by rewrite IH.
  - by rewrite IH.
Qed.

(** X18. When every retrieval fails the run still ends normally, the
    delay being one that [time.sleep] and the operating system take:
    nothing is written, the pauses are taken as usual, and no exception
    reaches the caller. *)
Theorem main_network_down (dates : list string) (w : world) :
  generate_date_range zero_fill (date_from a) (date_to a)
  = Some (Ret dates) →
  use_local_file a = false →
  0 <= delay a <= 9223372036 →
  (∀ i, os_sleep i (delay a) = Ret tt) →
  (∀ i url, ∃ e, http_get i url = Raise e) →
  main http_get read_local select_table os_sleep zero_fill a w
  = Some ({| disk := disk w;
             pauses := pauses w
                       ++ replicate (pred (length dates)) (delay a) |},
          Ret tt).
Proof.
  intros Hdates Hlocal Hdelay Hos Hdown.
  assert (∀ i date,
            scrape_bundesliga_market_values (http_get i) (read_local i)
              select_table (Some date) (use_local_file a) = Ret None)
    as Habsent.
  { intros i date. unfold scrape_bundesliga_market_values. rewrite Hlocal.
    destruct (validate_date_Ret (Some date)) as [date' ->].
    change (Ret date' ≫= ?f) with (f date'). cbv beta.
    destruct (Hdown i (build_url date')) as [e ->]. done. }
  unfold main. rewrite Hdates.
  destruct (for_dates_pauses dates O w Hdelay Hos) as (w' & Hrun & Hp).
  simpl in Hrun. rewrite Hrun. do 2 f_equal.
  pose proof (for_dates_absent (length dates) dates O w Habsent) as Hdisk.
  rewrite Hrun in Hdisk. simpl in Hdisk. rewrite Hlocal in Hp.
  destruct w'. simpl in *. by subst.
Qed.




(** X20. A start or end date of plain text that [strptime] rejects makes
    [main] raise [ValueError] before anything is requested or written. *)
Theorem main_rejects_bad_dates (w : world) :
  (plain (date_from a) = true ∧ ∀ dt, strptime (date_from a) ≠ Ret dt)
  ∨ (plain (date_to a) = true ∧ ∀ dt, strptime (date_to a) ≠ Ret dt) →
  main http_get read_local select_table os_sleep zero_fill a w
  = Some (w, Raise ValueError).
Proof.
  intros Hbad. unfold main, generate_date_range.
  destruct (strptime (date_from a)) as [start|e] eqn:Hfrom.
  - destruct (strptime (date_to a)) as [end_|e] eqn:Hto.
    + destruct Hbad as [[_ Hbad]|[_ Hbad]]; by edestruct Hbad.
    + by apply strptime_raises_ValueError in Hto as ->.
  - by apply strptime_raises_ValueError in Hfrom as ->.
Qed.

End MainFacts.

Lemma main_pauses_between_dates_witness :
  ∃ w',
    main page_served (λ _, Ret tt) (λ _, Some sample_table) pause_taken
      false sample_args new_world
    = Some (w', Ret tt)
    ∧ pauses w'
      = pauses new_world
        ++ replicate (if use_local_file sample_args then O
                      else pred (length sample_dates))
             (delay sample_args).
Proof.
  assert (generate_date_range false (date_from sample_args)
            (date_to sample_args) = Some (Ret sample_dates)) as Hdates
    by (vm_compute; reflexivity).
  assert (0 <= delay sample_args <= 9223372036) as Hdelay
    by (simpl; lia).
  exact (main_pauses_between_dates page_served (λ _, Ret tt)
           (λ _, Some sample_table) pause_taken false sample_args
           sample_dates new_world Hdates Hdelay (λ _, eq_refl)).
Defined.


Lemma main_only_appends_to_output_witness :
  let w' :=
    {| disk :=
         {| files :=
              {[ "out.csv" :=
                   old_lines
                   ++ concat ((λ date,
                                 block ("Date" :: headers sample_extraction)
                                   (Some date) (data sample_extraction))
                              <$> sample_dates) ]};
            unwritable := ∅ |};
       pauses := [5; 5] |} in
  main page_served (λ _, Ret tt) (λ _, Some sample_table) pause_taken
    false sample_args old_world
  = Some (w', Ret tt)
  ∧ unwritable (disk w') = unwritable (disk old_world)
  ∧ (∀ other, other ≠ output_file sample_args →
       files (disk w') !! other = files (disk old_world) !! other)
  ∧ (∀ content,
       files (disk old_world) !! output_file sample_args = Some content →
       ∃ more,
         files (disk w') !! output_file sample_args
         = Some (content ++ more)).
Proof.
  intros w'.
  assert (main page_served (λ _, Ret tt) (λ _, Some sample_table)
            pause_taken false sample_args old_world
          = Some (w', Ret tt)) as Hrun by (vm_compute; reflexivity).
  split; [exact Hrun|].
  exact (main_only_appends_to_output page_served (λ _, Ret tt)
           (λ _, Some sample_table) pause_taken false sample_args
           old_world w' (Ret tt) Hrun).
Defined.

Lemma main_network_down_witness :
  main network_down (λ _, Ret tt) (λ _, Some sample_table) pause_taken
    false sample_args new_world
  = Some ({| disk := disk new_world;
             pauses := pauses new_world
                       ++ replicate (pred (length sample_dates))
                            (delay sample_args) |},
          Ret tt).
Proof.
  assert (generate_date_range false (date_from sample_args)
            (date_to sample_args) = Some (Ret sample_dates)) as Hdates
    by (vm_compute; reflexivity).
  assert (0 <= delay sample_args <= 9223372036) as Hdelay
    by (simpl; lia).
  exact (main_network_down network_down (λ _, Ret tt)
           (λ _, Some sample_table) pause_taken false sample_args
           sample_dates new_world Hdates eq_refl Hdelay (λ _, eq_refl)
           (λ _ _, ex_intro _ OSError eq_refl)).
Defined.


Lemma main_rejects_bad_dates_witness :
  main network_down (λ _, Ret tt) (λ _, Some sample_table) pause_taken
    false
    {| date_from := "2024-10-01"; date_to := "01.11.2024";
       output_file := "out.csv"; use_local_file := false; delay := 5 |}
    new_world
  = Some (new_world, Raise ValueError).
Proof.
  apply (main_rejects_bad_dates network_down (λ _, Ret tt)
           (λ _, Some sample_table) pause_taken false
           {| date_from := "2024-10-01"; date_to := "01.11.2024";
              output_file := "out.csv"; use_local_file := false;
              delay := 5 |} new_world).
  right. split; [reflexivity|].
  intros dt Hdt. vm_compute in Hdt. discriminate Hdt.
Defined.

(** ** The normalizers beyond the fixtures *)

Lemma search_any_digit (s : string) (i : nat) :
  search_from re_any_digit s i = None ↔ has_digit s = false.
Proof.
  revert i. induction s as [|c s IH]; intros i; [done|].
  simpl. destruct (is_digit c); simpl; [done|]. apply IH.
Qed.

Lemma match_plus_digit_no_digit (r : regex) (s : string) :
  has_digit s = false → match_here (Plus re_d :: r) s = None.
Proof.
  destruct s as [|c s]; [done|]. simpl.
  intros [-> _]%orb_false_iff. done.
Qed.

Lemma match_here_opt (a : atom) (r : regex) (c : ascii) (s : string) :
  match_here (Opt a :: r) (String c s)
  = if test a c then
      match match_here r s with
      | Some n => Some (S n)
      | None => match_here r (String c s)
      end
    else match_here r (String c s).
Proof. reflexivity. Qed.

Lemma match_signed_number_no_digit (s : string) :
  has_digit s = false → match_here re_signed_number s = None.
Proof.
  intros Hs. unfold re_signed_number.
  destruct s as [|c s]; [done|].
  rewrite match_here_opt.
  rewrite (match_plus_digit_no_digit _ (String c s)) by done.
  simpl in Hs. apply orb_false_iff in Hs as [_ Hs].
  rewrite (match_plus_digit_no_digit _ s) by done.
  by destruct (test (Lit "-") c).
Qed.

Lemma search_signed_number_no_digit (s : string) (i : nat) :
  has_digit s = false → search_from re_signed_number s i = None.
Proof.
  revert i. induction s as [|c s IH]; intros i Hs.
  - done.
  - cbn [search_from]. rewrite match_signed_number_no_digit by done.
    simpl in Hs. apply orb_false_iff in Hs as [_ Hs]. by apply IH.
Qed.

(** X21. [parse_percentage] never raises; and a plain text without a
    digit makes both normalizers return zero, whatever else it holds. *)
Theorem normalizers_without_digit (text : string) :
  (∃ x, parse_percentage text = Ret x)
  ∧ (plain text = true → has_digit text = false →
     convert_currency_to_number text = Ret 0
     ∧ parse_percentage text = Ret (S754_zero false)).
Proof.
  split.
  - unfold parse_percentage.
    destruct (negb (truthy text) || _); [by eexists|].
    destruct (negb (contains "%" text) && _); [by eexists|].
    destruct (re_search re_signed_number text) as [m|]; simpl;
      [|by eexists].
    destruct (float (group text m)); simpl; by eexists.
  - intros _ Hd. split.
    + unfold convert_currency_to_number, re_search.
      by rewrite (proj2 (search_any_digit text O) Hd).
    + unfold parse_percentage, re_search.
      rewrite search_signed_number_no_digit by done.
      by repeat case_match.
Qed.

Lemma normalizers_without_digit_witness :
  (∃ x, parse_percentage "n/a %" = Ret x)
  ∧ convert_currency_to_number "n/a %" = Ret 0
  ∧ parse_percentage "n/a %" = Ret (S754_zero false).
Proof.
  destruct (normalizers_without_digit "n/a %") as [Htotal Hzero].
  split; [exact Htotal|]. apply Hzero; reflexivity.
Defined.

(** *** The only exception of [convert_currency_to_number] *)

(** Rounding a mantissa that is not negative never gives a NaN. *)
Lemma binary_round_aux_not_nan (s : bool) (m e : Z) (l : location) :
  0 <= m → binary_round_aux prec emax s m e l ≠ S754_nan.
Proof.
  intros Hm. unfold binary_round_aux.
  pose proof (shr_fexp_nonneg m e l Hm) as H1.
  destruct (shr_fexp prec emax m e l) as [mrs' e']. simpl in H1.
  assert (0 <= round_nearest_even (shr_m mrs') (loc_of_shr_record mrs'))
    as H2.
  { unfold round_nearest_even.
    destruct (loc_of_shr_record mrs') as [|[]]; try lia.
    destruct (Z.even (shr_m mrs')); lia. }
  pose proof (shr_fexp_nonneg _ e' loc_Exact H2) as H3.
  destruct (shr_fexp prec emax _ e' loc_Exact) as [mrs'' e'']. simpl in H3.
  destruct (shr_m mrs''); [done| |lia].
  by case_match.
Qed.

Lemma fmul_not_nan (x : spec_float) (p : positive) (e : Z) :
  x ≠ S754_nan → fmul x (S754_finite false p e) ≠ S754_nan.
Proof.
  intros Hx. destruct x as [s|s| |s m ex]; try done.
  apply binary_round_aux_not_nan. lia.
Qed.

Lemma float_of_decimal_not_nan (s : bool) (m e : Z) :
  float_of_decimal s m e ≠ S754_nan.
Proof.
  unfold float_of_decimal. destruct m as [|p|p]; try done.
  destruct (0 <=? e).
  - unfold binary_normalize.
    destruct (cond_Zopp s (Z.pos p * 10 ^ e)) as [|q|q]; [done|..];
      unfold binary_round;
      destruct (shl_align _ _ _) as [mz ez];
      apply binary_round_aux_not_nan; lia.
  - unfold SFdiv, SFdiv_core_binary.
    set (m' := match _ with Z.pos _ => _ | _ => _ end).
    assert (0 <= m') as Hm'.
    { unfold m'. destruct (_ - _ - _); try lia.
      rewrite Z.shiftl_mul_pow2 by lia. lia. }
    pose proof (Z.div_pos m' (Z.pos (Z.to_pos (10 ^ (- e)))) Hm' eq_refl)
      as Hq.
    unfold Z.div in Hq. destruct (Z.div_eucl m' _) as [q r].
    by apply binary_round_aux_not_nan.
Qed.

(** Digits survive what the function does to the text before [float]. *)
Lemma is_digit_not_space (c : ascii) :
  is_digit c = true → is_space c = false.
Proof. destruct c as [[] [] [] [] [] [] [] []]; by vm_compute. Qed.

Lemma is_digit_lower_char (c : ascii) :
  is_digit (lower_char c) = is_digit c.
Proof. destruct c as [[] [] [] [] [] [] [] []]; by vm_compute. Qed.

Lemma is_digit_not_blank (c : ascii) :
  is_digit c = true → is_blank c = false.
Proof. destruct c as [[] [] [] [] [] [] [] []]; by vm_compute. Qed.

Lemma has_digit_lstrip_with (blank : ascii → bool) (s : string) :
  (∀ c, is_digit c = true → blank c = false) →
  has_digit (lstrip_with blank s) = has_digit s.
Proof.
  intros Hblank. induction s as [|c s IH]; [done|]. simpl.
  destruct (blank c) eqn:Hc; [|done].
  rewrite IH. destruct (is_digit c) eqn:Hd; [|done].
  apply Hblank in Hd. congruence.
Qed.

Lemma has_digit_rev_app (s acc : string) :
  has_digit (String.rev_app s acc) = has_digit s || has_digit acc.
Proof.
  revert acc. induction s as [|c s IH]; intros acc; [done|].
  simpl. rewrite IH. simpl. by destruct (is_digit c), (has_digit s).
Qed.

Lemma has_digit_rev (s : string) : has_digit (String.rev s) = has_digit s.
Proof. unfold String.rev. by rewrite has_digit_rev_app, orb_false_r. Qed.

Lemma has_digit_strip_with (blank : ascii → bool) (s : string) :
  (∀ c, is_digit c = true → blank c = false) →
  has_digit (strip_with blank s) = has_digit s.
Proof.
  intros Hblank. unfold strip_with, rstrip_with.
  by rewrite has_digit_rev, has_digit_lstrip_with, has_digit_rev,
    has_digit_lstrip_with.
Qed.

Lemma has_digit_strip (s : string) : has_digit (strip s) = has_digit s.
Proof. apply has_digit_strip_with, is_digit_not_space. Qed.

Lemma has_digit_lower (s : string) : has_digit (lower s) = has_digit s.
Proof.
  induction s as [|c s IH]; [done|]. simpl.
  by rewrite is_digit_lower_char, IH.
Qed.

Lemma has_digit_sign (s : string) : has_digit (sign s).2 = has_digit s.
Proof.
  destruct s as [|c s]; [done|].
  destruct c as [[] [] [] [] [] [] [] []]; reflexivity.
Qed.

Lemma replace_go_cons (old new : string) (c : ascii) (s : string)
    (skip : nat) :
  replace_go old new (String c s) skip
  = match skip with
    | S k => replace_go old new s k
    | O =>
        if String.prefix old (String c s)
        then new +:+ replace_go old new s (Nat.pred (String.length old))
        else String c (replace_go old new s O)
    end.
Proof. reflexivity. Qed.

(** [skip] characters of an occurrence of [old] are still ahead: they
    are the last [skip] characters of [old]. *)
Lemma has_digit_replace_go (old tail s : string) (skip : nat) :
  old ≠ "" → has_digit old = false →
  has_digit tail = false → String.length tail = skip →
  String.prefix tail s = true →
  has_digit (replace_go old "" s skip) = has_digit s.
Proof.
  intros Hne Hold. revert tail skip.
  induction s as [|c s IH]; intros tail skip Htail Hlen Hpre; [done|].
  rewrite replace_go_cons. destruct skip as [|skip].
  - destruct (String.prefix old (String c s)) eqn:Hocc.
    + destruct old as [|c0 old']; [done|]. simpl in Hocc, Hold.
      apply orb_false_iff in Hold as [Hc0 Hold'].
      destruct (Ascii.ascii_dec c0 c) as [->|]; [|done].
      cbn [Nat.pred String.length]. change ("" +:+ ?x) with x.
      rewrite (IH old' (String.length old')) by done.
      simpl. by rewrite Hc0.
    + simpl. f_equal. apply (IH "" O); [done|done|by destruct s].
  - destruct tail as [|c0 tail]; [done|]. simpl in Htail, Hlen, Hpre.
    apply orb_false_iff in Htail as [Hc0 Htail].
    destruct (Ascii.ascii_dec c0 c) as [->|]; [|done].
    rewrite (IH tail skip) by (done || by injection Hlen).
    simpl. by rewrite Hc0.
Qed.

Lemma has_digit_replace (old s : string) :
  old ≠ "" → has_digit old = false →
  has_digit (replace old "" s) = has_digit s.
Proof.
  intros Hne Hold. unfold replace.
  apply (has_digit_replace_go old "" s O); [done|done|done|done|].
  by destruct s.
Qed.

Lemma float_nan_no_digit (s : string) :
  float s = Ret S754_nan → has_digit s = false.
Proof.
  unfold float.
  pose proof (has_digit_sign (strip_with is_blank s)) as Hsign.
  destruct (sign (strip_with is_blank s)) as [neg body]. simpl in Hsign.
  rewrite has_digit_strip_with in Hsign by apply is_digit_not_blank.
  destruct (String.eqb (lower body) "inf" || _); [done|].
  destruct (String.eqb_spec (lower body) "nan") as [Hnan|_].
  - intros _. rewrite <-Hsign, <-has_digit_lower, Hnan. done.
  - destruct (number body) as [[[m frac] rest]|]; [|done].
    destruct (exponent rest) as [e|]; [|done].
    intros [= Hnan]. by apply float_of_decimal_not_nan in Hnan.
Qed.

Lemma int_raises (x : spec_float) (e : exn) :
  int x = Raise e → x ≠ S754_nan → e = OverflowError.
Proof. destruct x; simpl; congruence. Qed.

(** X22. [OverflowError] is the only exception
    [convert_currency_to_number] can raise: a text that [float] cannot
    read gives 0, and a NaN never reaches [int], so the call fails only
    when the number read is infinite. *)
Theorem convert_currency_to_number_raises (currency_str : string)
    (e : exn) :
  convert_currency_to_number currency_str = Raise e → e = OverflowError.
Proof.
  unfold convert_currency_to_number, re_search.
  destruct (search_from re_any_digit currency_str 0) as [m|] eqn:Hdigit;
    [|done].
  assert (has_digit currency_str = true) as Hd.
  { destruct (has_digit currency_str) eqn:Hd; [done|].
    apply (search_any_digit _ O) in Hd. congruence. }
  clear Hdigit. simpl.
  destruct (negb (truthy currency_str) || _); [done|].
  destruct (negb (contains "€" currency_str) && _ && _).
  - destruct (float currency_str) as [x|e'] eqn:Hf; simpl.
    + destruct x; simpl; congruence.
    + apply float_raises_ValueError in Hf as ->. done.
  - set (text := strip (replace "€" "" currency_str)).
    assert (has_digit text = true) as Htext
      by (unfold text; by rewrite has_digit_strip, has_digit_replace).
    assert (∀ x, float text = Ret x → x ≠ S754_nan) as Hplain.
    { intros x Hf ->. apply float_nan_no_digit in Hf. congruence. }
    assert (∀ unit x, float (replace unit "" text) = Ret x →
            unit ≠ "" → has_digit unit = false → x ≠ S754_nan) as Hunit.
    { intros unit x Hf Hne Hu ->. apply float_nan_no_digit in Hf.
      rewrite has_digit_replace in Hf by done. congruence. }
    destruct (contains "m" text).
    { destruct (float (replace "m" "" text)) as [x|e'] eqn:Hf.
      - intros Hint. apply int_raises in Hint; [done|].
        apply fmul_not_nan. by eapply Hunit.
      - apply float_raises_ValueError in Hf as ->. done. }
    destruct (contains "k" text).
    { destruct (float (replace "k" "" text)) as [x|e'] eqn:Hf.
      - intros Hint. apply int_raises in Hint; [done|].
        apply fmul_not_nan. by eapply Hunit.
      - apply float_raises_ValueError in Hf as ->. done. }
    destruct (float text) as [x|e'] eqn:Hf.
    + intros Hint. apply int_raises in Hint; [done|]. by apply Hplain.
    + apply float_raises_ValueError in Hf as ->. done.
Qed.

Lemma convert_currency_to_number_raises_witness :
  convert_currency_to_number "1e999" = Raise OverflowError
  ∧ OverflowError = OverflowError.
Proof.
  assert (convert_currency_to_number "1e999" = Raise OverflowError) as Hraise
    by (vm_compute; reflexivity).
  split; [exact Hraise|].
  exact (convert_currency_to_number_raises "1e999" OverflowError Hraise).
Defined.
